(** * yearly-bot: a shallow embedding of [main.py]

    The bot sends one catalog message per day to every subscribed chat.
    This development embeds the catalog loader, the timezone and time
    helpers, the job-queue helpers, the delivery callback, the command
    handlers and the startup hook, and proves the properties the
    specification states about them.

    Conventions.
    - A Python [str] that holds message text is a list of Unicode code
      points ([pystr]); dictionary keys, command arguments and timezone
      names are [string]s.
    - A chat's [chat_data] dictionary is a [gmap string pyval].
    - Handlers run in a small state-and-exception monad over [World]:
      the mutations made before a [raise] stay visible, as in Python.
    - Logging is not modelled. *)

From Stdlib Require Import ZArith NArith List Lia Bool Ascii.
From stdpp Require Import base gmap strings list fin_maps pretty.

Local Open Scope Z_scope.

(* ===================================================================== *)
(** ** Text: code points, [str.splitlines] and [str.strip]               *)
(* ===================================================================== *)

Module Text.

(** A Python [str] as the sequence of its code points. *)
Abbreviation pystr := (list N).

(** [str.isspace] on one character (CPython's [_PyUnicode_IsWhitespace]). *)
Definition is_space (c : N) : bool :=
  ((9 <=? c) && (c <=? 13) || (28 <=? c) && (c <=? 32)
   || (c =? 133) || (c =? 160) || (c =? 5760)
   || (8192 <=? c) && (c <=? 8202)
   || (c =? 8232) || (c =? 8233) || (c =? 8239) || (c =? 8287)
   || (c =? 12288))%N.

(** The line boundaries of [str.splitlines]
    (CPython's [_PyUnicode_IsLinebreak]). *)
Definition is_linebreak (c : N) : bool :=
  ((10 <=? c) && (c <=? 13) || (28 <=? c) && (c <=? 30)
   || (c =? 133) || (c =? 8232) || (c =? 8233))%N.

(** [splitlines_from cur s]: [cur] is the current line, reversed.
    A carriage return followed by a line feed is one boundary; a final
    line is produced only when it is not empty. *)
Fixpoint splitlines_from (cur : pystr) (s : pystr) : list pystr :=
  match s with
  | [] => match cur with [] => [] | _ => [rev cur] end
  | c :: rest =>
      if is_linebreak c then
        match rest with
        | c' :: rest' =>
            if ((c =? 13) && (c' =? 10))%N
            then rev cur :: splitlines_from [] rest'
            else rev cur :: splitlines_from [] rest
        | [] => rev cur :: splitlines_from [] rest
        end
      else splitlines_from (c :: cur) rest
  end.

Definition splitlines (s : pystr) : list pystr := splitlines_from [] s.

Fixpoint lstrip (s : pystr) : pystr :=
  match s with
  | c :: rest => if is_space c then lstrip rest else s
  | [] => []
  end.

Definition rstrip (s : pystr) : pystr := rev (lstrip (rev s)).

Definition strip (s : pystr) : pystr := rstrip (lstrip s).

(** Truthiness of a [str]: non-empty. *)
Definition truthy (s : pystr) : bool :=
  match s with [] => false | _ => true end.

(** A line is blank when all its characters are whitespace. *)
Definition blank (s : pystr) : bool := forallb is_space s.

End Text.

Import Text.

(* ===================================================================== *)
(** ** Exceptions and results                                            *)
(* ===================================================================== *)

Inductive exn : Type :=
| FileNotFoundError
| ValueError
| TypeError
| IndexError
| KeyError
| ZoneInfoNotFoundError
| TransportError
| OverflowError
| UnicodeDecodeError
| IsADirectoryError
| PermissionError.

Inductive result (A : Type) : Type :=
| Ret (a : A)
| Raise (e : exn).

Arguments Ret {A} a.
Arguments Raise {A} e.

Definition raises {A} (r : result A) : Prop :=
  match r with Raise _ => True | Ret _ => False end.

(* ===================================================================== *)
(** ** The message catalog                                               *)
(* ===================================================================== *)

(** What [path] is on disk: [Missing] when [path.exists()] is false,
    otherwise [Existing read] where [read] is what
    [path.read_text(encoding="utf-8")] does, the decoded text or the
    exception it raises ([UnicodeDecodeError] for bytes that are not
    UTF-8, [IsADirectoryError], [PermissionError], ...). *)
Inductive file : Type :=
| Missing
| Existing (read : result pystr).

(** [load_messages(path)]. *)
Definition load_messages (path : file) : result (list pystr) :=
  match path with
  | Missing => Raise FileNotFoundError
  | Existing (Raise e) => Raise e
  | Existing (Ret text) =>
      let msgs := map strip (filter (fun line => truthy (strip line) = true)
                                    (splitlines text)) in
      match msgs with
      | [] => Raise ValueError
      | _ => Ret msgs
      end
  end.

(** The literal sent when the catalog is exhausted. *)
Definition FINISHED_NOTICE : pystr :=
  [ 1069; 1090; 1086; 32; 1073; 1099; 1083; 1086; 32; 1087; 1086;
    1089; 1083; 1077; 1076; 1085; 1077; 1077; 32; 1089; 1086; 1086;
    1073; 1097; 1077; 1085; 1080; 1077; 46; 32; 1043; 1086; 1076; 32;
    1079; 1072; 1074; 1077; 1088; 1096; 1105; 1085; 46; 32; 1063;
    1090; 1086; 1073; 1099; 32; 1085; 1072; 1095; 1072; 1090; 1100;
    32; 1079; 1072; 1085; 1086; 1074; 1086; 32; 8212; 32; 47; 114;
    101; 115; 101; 116; 46 ]%N.

(* ===================================================================== *)
(** ** Values, per-chat dictionaries, times and jobs                     *)
(* ===================================================================== *)

(** The Python values a [chat_data] dictionary or a job's [data] holds. *)
Inductive pyval : Type :=
| VInt (n : Z)
| VStr (s : string)
| VNone.

#[global] Instance pyval_eq_dec : EqDecision pyval.
Proof. solve_decision. Defined.

(** [dict.get(key, dflt)] and [dict.setdefault(key, dflt)]. *)
Definition dict_get (d : gmap string pyval) (key : string) (dflt : pyval)
  : pyval :=
  match d !! key with Some v => v | None => dflt end.

Definition setdefault (key : string) (dflt : pyval) (d : gmap string pyval)
  : gmap string pyval :=
  match d !! key with Some _ => d | None => <[key := dflt]> d end.

(** Truthiness of a dictionary: non-empty. *)
Definition dict_truthy (d : gmap string pyval) : bool :=
  bool_decide (d ≠ ∅).

Definition DEFAULT_TZ : string := "Europe/Minsk".

(** [DEFAULT_TIME = time(10, 0)], read only through [.hour] and
    [.minute]. *)
Definition DEFAULT_HOUR : Z := 10.
Definition DEFAULT_MINUTE : Z := 0.

(** A [datetime.time] with a [ZoneInfo]; a zone is identified by its key. *)
Record pytime : Type := mk_time { hour : Z; minute : Z; tzinfo : string }.

#[global] Instance pytime_eq_dec : EqDecision pytime.
Proof. solve_decision. Defined.

(** An argument of [datetime.time] read as a C [int]: [TypeError] for
    a value that is not an integer, [OverflowError] for an integer
    outside [-2^31, 2^31 - 1]. *)
Definition c_int (v : pyval) : result Z :=
  match v with
  | VInt n =>
      if (- 2 ^ 31 <=? n) && (n <=? 2 ^ 31 - 1) then Ret n
      else Raise OverflowError
  | _ => Raise TypeError
  end.

(** [time(h, m, tzinfo=tz)]: the hour, then the minute, is read as a C
    [int]; then the hour, then the minute, is checked against its
    range. *)
Definition time_of (h m : pyval) (tz : string) : result pytime :=
  match c_int h with
  | Raise e => Raise e
  | Ret hh =>
      match c_int m with
      | Raise e => Raise e
      | Ret mm =>
          if (0 <=? hh) && (hh <=? 23) then
            if (0 <=? mm) && (mm <=? 59) then Ret (mk_time hh mm tz)
            else Raise ValueError
          else Raise ValueError
      end
  end.

(** [f"daily-{chat_id}"]. *)
Definition job_name (chat_id : Z) : string := "daily-" +:+ pretty chat_id.

(** A job of the queue.  Every job of this program runs
    [send_message_job]; [data] is the job's [data] argument. *)
Record Job : Type := mk_job {
  name : string;
  job_chat_id : Z;
  job_time : pytime;
  data : option (gmap string pyval)
}.

#[global] Instance Job_eq_dec : EqDecision Job.
Proof. solve_decision. Defined.

(** [job_queue.get_jobs_by_name(n)]. *)
Definition get_jobs_by_name (jobs : list Job) (n : string) : list Job :=
  filter (fun j => name j = n) jobs.

(** [j.schedule_removal()]: the job object [j] leaves the queue. *)
Fixpoint schedule_removal (j : Job) (jobs : list Job) : list Job :=
  match jobs with
  | [] => []
  | j' :: rest => if decide (j' = j) then rest
                  else j' :: schedule_removal j rest
  end.

(** Number of live jobs called [n]. *)
Definition live (jobs : list Job) (n : string) : nat :=
  length (get_jobs_by_name jobs n).

(** [MESSAGES[idx]] with Python's negative indices. *)
Definition py_getitem (l : list pystr) (idx : Z) : result pystr :=
  let len := Z.of_nat (length l) in
  let pos := if idx <? 0 then idx + len else idx in
  if (0 <=? pos) && (pos <? len) then
    match l !! Z.to_nat pos with
    | Some m => Ret m
    | None => Raise IndexError
    end
  else Raise IndexError.

(** [s.split(":")]. *)
Fixpoint split_colon (s : string) : list string :=
  match s with
  | EmptyString => [EmptyString]
  | String c rest =>
      if Ascii.eqb c ":"%char then EmptyString :: split_colon rest
      else match split_colon rest with
           | hd :: tl => String c hd :: tl
           | [] => [String c EmptyString]
           end
  end.

(* ===================================================================== *)
(** ** The world and the handler monad                                   *)
(* ===================================================================== *)

(** What a handler replies with; the rendering of the text is left out. *)
Inductive reply : Type :=
| ReplyStart (hh mm : Z) (tz : pyval)
| ReplySetTimeUsage
| ReplySetTimeBad
| ReplyTimeChanged (hh mm : Z)
| ReplySetTzUsage
| ReplyBadTz
| ReplyTzChanged (tz : string)
| ReplyStatus (hh mm : Z) (tz : pyval) (next left : Z)
| ReplyPaused
| ReplyResumed
| ReplyReset.

Inductive outmsg : Type :=
| Text (t : pystr)
| Reply (r : reply).

(** The transport: whether sending [m] to a chat goes through. *)
Definition transport : Type := Z -> outmsg -> bool.

(** [chat_data]: [application.chat_data]; [job_queue]: [None] when the
    scheduler is not installed; [outbox]: the messages delivered so far,
    oldest first. *)
Record World : Type := mk_world {
  chat_data : gmap Z (gmap string pyval);
  job_queue : option (list Job);
  outbox : list (Z * outmsg)
}.

Definition M (A : Type) : Type := World -> result A * World.

Definition ret {A} (a : A) : M A := fun w => (Ret a, w).

Definition raise {A} (e : exn) : M A := fun w => (Raise e, w).

Definition bind {A B} (m : M A) (k : A -> M B) : M B :=
  fun w => match m w with
           | (Ret a, w') => k a w'
           | (Raise e, w') => (Raise e, w')
           end.

Definition lift {A} (r : result A) : M A := fun w => (r, w).

Notation "x <- m ;; k" := (bind m (fun x => k))
  (at level 100, m at next level, right associativity).
Notation "m ;;; k" := (bind m (fun _ => k))
  (at level 100, right associativity).

Definition get_chat_data : M (gmap Z (gmap string pyval)) :=
  fun w => (Ret (chat_data w), w).

Definition get_job_queue : M (option (list Job)) :=
  fun w => (Ret (job_queue w), w).

Definition set_jobs (jobs : list Job) : M unit :=
  fun w => (Ret tt, mk_world (chat_data w) (Some jobs) (outbox w)).

(** [context.chat_data] is [application.chat_data[chat_id]] of a
    [defaultdict(dict)]: reading it creates an empty dictionary for a
    chat that has none. *)
Definition the_store (w : World) (chat_id : Z) : gmap string pyval :=
  match chat_data w !! chat_id with Some d => d | None => ∅ end.

Definition context_chat_data (chat_id : Z) : M (gmap string pyval) :=
  fun w => let d := the_store w chat_id in
           (Ret d, mk_world (<[chat_id := d]> (chat_data w))
                            (job_queue w) (outbox w)).

(** In-place mutation of [application.chat_data[chat_id]]. *)
Definition mutate (chat_id : Z)
    (f : gmap string pyval -> gmap string pyval) : M unit :=
  fun w => (Ret tt, mk_world (<[chat_id := f (the_store w chat_id)]>
                                (chat_data w))
                             (job_queue w) (outbox w)).

(** [bot.send_message] and [message.reply_text]: the message reaches the
    outbox, or the call raises. *)
Definition send_message (net : transport) (chat_id : Z) (m : outmsg)
  : M unit :=
  fun w => if net chat_id m
           then (Ret tt, mk_world (chat_data w) (job_queue w)
                                  (outbox w ++ [(chat_id, m)]))
           else (Raise TransportError, w).

Fixpoint for_each {A} (f : A -> M unit) (l : list A) : M unit :=
  match l with
  | [] => ret tt
  | x :: rest => f x ;;; for_each f rest
  end.

(** [j.schedule_removal()] on the shared queue. *)
Definition remove_job (j : Job) : M unit :=
  fun w => match job_queue w with
           | Some jobs => (Ret tt, mk_world (chat_data w)
                                            (Some (schedule_removal j jobs))
                                            (outbox w))
           | None => (Ret tt, w)
           end.

(** [job_queue.run_daily(send_message_job, time=t, chat_id=..., name=...,
    data=...)]: one more job in the queue. *)
Definition run_daily (t : pytime) (chat_id : Z) (n : string)
    (d : gmap string pyval) : M unit :=
  fun w => match job_queue w with
           | Some jobs => (Ret tt, mk_world (chat_data w)
                                            (Some (jobs ++ [mk_job n chat_id t (Some d)]))
                                            (outbox w))
           | None => (Ret tt, w)
           end.

(** [d[key]]. *)
Definition dict_item (d : gmap string pyval) (key : string) : result pyval :=
  match d !! key with Some v => Ret v | None => Raise KeyError end.

(** The value a format specification [:02d] accepts. *)
Definition format_02d (v : pyval) : result Z :=
  match v with
  | VInt n => Ret n
  | VStr _ => Raise ValueError
  | VNone => Raise TypeError
  end.

(* ===================================================================== *)
(** ** The program                                                       *)
(* ===================================================================== *)

Section Bot.

(** The system timezone database: the keys [ZoneInfo] accepts. *)
Variable tz_known : string -> bool.

(** The built-in [int] on a [str]: [None] when it raises [ValueError]. *)
Variable py_int : string -> option Z.

(** The catalog, loaded once when the module is imported. *)
Variable MESSAGES : list pystr.

(** [ZoneInfo(key)]. *)
Definition ZoneInfo (key : pyval) : result string :=
  match key with
  | VStr k => if tz_known k then Ret k else Raise ZoneInfoNotFoundError
  | _ => Raise TypeError
  end.

Definition get_user_tz (data : gmap string pyval) : result string :=
  let tz_name := dict_get data "tz" (VStr DEFAULT_TZ) in
  match ZoneInfo tz_name with
  | Ret z => Ret z
  | Raise _ => ZoneInfo (VStr DEFAULT_TZ)
  end.

Definition get_user_time (data : gmap string pyval) : result pytime :=
  let h := dict_get data "hour" (VInt DEFAULT_HOUR) in
  let m := dict_get data "minute" (VInt DEFAULT_MINUTE) in
  match get_user_tz data with
  | Ret tz => time_of h m tz
  | Raise e => Raise e
  end.

Definition cancel_existing_job (chat_id : Z) : M unit :=
  jq <- get_job_queue ;;
  match jq with
  | None => ret tt
  | Some jobs =>
      for_each remove_job (get_jobs_by_name jobs (job_name chat_id))
  end.

Definition schedule_daily_job (chat_id : Z) (data : gmap string pyval)
  : M unit :=
  jq <- get_job_queue ;;
  match jq with
  | None => ret tt
  | Some _ =>
      cancel_existing_job chat_id ;;;
      t <- lift (get_user_time data) ;;
      run_daily t chat_id (job_name chat_id) {[ "chat_id" := VInt chat_id ]}
  end.

(** [(context.job.data or {}).get("chat_id")]. *)
Definition job_data_chat_id (job : Job) : pyval :=
  match data job with
  | Some d => dict_get d "chat_id" VNone
  | None => VNone
  end.

(** [idx >= len(MESSAGES)]. *)
Definition ge_len (idx : pyval) : result bool :=
  match idx with
  | VInt i => Ret (Z.of_nat (length MESSAGES) <=? i)
  | _ => Raise TypeError
  end.

(** The delivery callback.  [application.chat_data] has integer keys,
    so [.get] finds nothing for a chat id that is not an integer. *)
Definition send_message_job (net : transport) (job : Job) : M unit :=
  match job_data_chat_id job with
  | VNone => ret tt
  | VStr _ => ret tt
  | VInt chat_id =>
      cd <- get_chat_data ;;
      match cd !! chat_id with
      | None => ret tt
      | Some chat_store =>
          if dict_truthy chat_store then
            let idx := dict_get chat_store "index" (VInt 0) in
            finished <- lift (ge_len idx) ;;
            if finished : bool then
              cancel_existing_job chat_id ;;;
              send_message net chat_id (Text FINISHED_NOTICE)
            else
              match idx with
              | VInt i =>
                  m <- lift (py_getitem MESSAGES i) ;;
                  send_message net chat_id (Text m) ;;;
                  mutate chat_id (insert "index" (VInt (i + 1)))
              | _ => raise TypeError
              end
          else ret tt
      end
  end.

(** *** Commands *)

Definition start (net : transport) (chat_id : Z) : M unit :=
  mutate chat_id (setdefault "tz" (VStr DEFAULT_TZ)) ;;;
  mutate chat_id (setdefault "hour" (VInt DEFAULT_HOUR)) ;;;
  mutate chat_id (setdefault "minute" (VInt DEFAULT_MINUTE)) ;;;
  mutate chat_id (setdefault "index" (VInt 0)) ;;;
  d <- context_chat_data chat_id ;;
  schedule_daily_job chat_id d ;;;
  d' <- context_chat_data chat_id ;;
  t <- lift (get_user_time d') ;;
  tz <- lift (dict_item d' "tz") ;;
  send_message net chat_id (Reply (ReplyStart (hour t) (minute t) tz)).

Definition settime (net : transport) (chat_id : Z) (args : list string)
  : M unit :=
  match args with
  | [] => send_message net chat_id (Reply ReplySetTimeUsage)
  | a :: _ =>
      match split_colon a with
      | [p1; p2] =>
          match py_int p1, py_int p2 with
          | Some hh, Some mm =>
              if (0 <=? hh) && (hh <=? 23) && (0 <=? mm) && (mm <=? 59) then
                mutate chat_id (insert "hour" (VInt hh)) ;;;
                mutate chat_id (insert "minute" (VInt mm)) ;;;
                d <- context_chat_data chat_id ;;
                schedule_daily_job chat_id d ;;;
                send_message net chat_id (Reply (ReplyTimeChanged hh mm))
              else send_message net chat_id (Reply ReplySetTimeBad)
          | _, _ => send_message net chat_id (Reply ReplySetTimeBad)
          end
      | _ => send_message net chat_id (Reply ReplySetTimeUsage)
      end
  end.

Definition settz (net : transport) (chat_id : Z) (args : list string)
  : M unit :=
  match args with
  | [] => send_message net chat_id (Reply ReplySetTzUsage)
  | a :: _ =>
      match ZoneInfo (VStr a) with
      | Raise _ => send_message net chat_id (Reply ReplyBadTz)
      | Ret _ =>
          mutate chat_id (insert "tz" (VStr a)) ;;;
          d <- context_chat_data chat_id ;;
          schedule_daily_job chat_id d ;;;
          send_message net chat_id (Reply (ReplyTzChanged a))
      end
  end.

Definition status (net : transport) (chat_id : Z) : M unit :=
  d <- context_chat_data chat_id ;;
  let tz := dict_get d "tz" (VStr DEFAULT_TZ) in
  let hh := dict_get d "hour" (VInt DEFAULT_HOUR) in
  let mm := dict_get d "minute" (VInt DEFAULT_MINUTE) in
  match dict_get d "index" (VInt 0) with
  | VInt idx =>
      let left := Z.max 0 (Z.of_nat (length MESSAGES) - idx) in
      h <- lift (format_02d hh) ;;
      m <- lift (format_02d mm) ;;
      send_message net chat_id (Reply (ReplyStatus h m tz (idx + 1) left))
  | _ => raise TypeError
  end.

Definition pause (net : transport) (chat_id : Z) : M unit :=
  cancel_existing_job chat_id ;;;
  send_message net chat_id (Reply ReplyPaused).

Definition resume (net : transport) (chat_id : Z) : M unit :=
  d <- context_chat_data chat_id ;;
  schedule_daily_job chat_id d ;;;
  send_message net chat_id (Reply ReplyResumed).

Definition reset (net : transport) (chat_id : Z) : M unit :=
  mutate chat_id (insert "index" (VInt 0)) ;;;
  send_message net chat_id (Reply ReplyReset).

(** *** Startup *)

(** [on_startup]: every entry of [chat_data] is a dictionary here, so
    the [isinstance] test always passes.  The entries come in the order
    of the map, not in the insertion order of the Python dictionary; the
    two differ in their effect only when an entry makes the loop raise,
    and the statements about [on_startup] assume that none does.  The
    loop over an explicit order is [on_startup_over]. *)
Definition on_startup : M unit :=
  cd <- get_chat_data ;;
  for_each (fun item => schedule_daily_job (fst item) (snd item))
           (map_to_list cd).

(** A process start on the persisted [chat_data]: an empty queue (or
    none, when the scheduler is not installed), then [on_startup]. *)
Definition boot (persisted : gmap Z (gmap string pyval))
    (scheduler : bool) (sent : list (Z * outmsg)) : result unit * World :=
  on_startup (mk_world persisted (if scheduler then Some [] else None) sent).

(** *** Events *)

Inductive event : Type :=
| EStart (chat_id : Z)
| ESetTime (chat_id : Z) (args : list string)
| ESetTz (chat_id : Z) (args : list string)
| EStatus (chat_id : Z)
| EPause (chat_id : Z)
| EResume (chat_id : Z)
| EReset (chat_id : Z)
| EFire (job : Job)
| ERestart.

Definition handle (net : transport) (ev : event) : M unit :=
  match ev with
  | EStart c => start net c
  | ESetTime c args => settime net c args
  | ESetTz c args => settz net c args
  | EStatus c => status net c
  | EPause c => pause net c
  | EResume c => resume net c
  | EReset c => reset net c
  | EFire job => send_message_job net job
  | ERestart =>
      fun w => boot (chat_data w)
                    (match job_queue w with Some _ => true | None => false end)
                    (outbox w)
  end.

(** A fire needs its job in the queue; commands and restarts may
    always happen.  A restart keeps [chat_data] (the pickle file) and
    the messages already delivered, and loses the queue. *)
Definition enabled (w : World) (ev : event) : Prop :=
  match ev with
  | EFire job => exists jobs, job_queue w = Some jobs /\ job ∈ jobs
  | _ => True
  end.

(** The states the bot reaches from a first start with no data. *)
Inductive reachable : World -> Prop :=
| reach_init (scheduler : bool) :
    reachable (mk_world ∅ (if scheduler then Some [] else None) [])
| reach_step w net ev :
    reachable w -> enabled w ev -> reachable (snd (handle net ev w)).

(** The stored cursor of a chat, when it has one. *)
Definition cursor (w : World) (chat_id : Z) : option pyval :=
  match chat_data w !! chat_id with
  | Some d => d !! "index"
  | None => None
  end.

(** Live timers of a chat. *)
Definition timers (w : World) (chat_id : Z) : nat :=
  match job_queue w with
  | Some jobs => live jobs (job_name chat_id)
  | None => O
  end.

End Bot.

(* ===================================================================== *)
(** ** Vocabulary of the statements                                      *)
(* ===================================================================== *)

(** The queue once every job called [n] has left it. *)
Definition without (n : string) (jobs : list Job) : list Job :=
  filter (fun j => name j <> n) jobs.

Definition set_queue (w : World) (q : option (list Job)) : World :=
  mk_world (chat_data w) q (outbox w).

(** A sequence of [schedule_daily_job] calls, each run to its end
    whether it returns or raises. *)
Definition run_schedules (tz_known : string -> bool)
    (calls : list (Z * gmap string pyval)) (w : World) : World :=
  fold_left (fun w call => snd (schedule_daily_job tz_known (fst call)
                                                   (snd call) w))
            calls w.

(** The store [start] leaves behind: four [setdefault]s in source order. *)
Definition start_store (d : gmap string pyval) : gmap string pyval :=
  setdefault "index" (VInt 0)
    (setdefault "minute" (VInt DEFAULT_MINUTE)
       (setdefault "hour" (VInt DEFAULT_HOUR)
          (setdefault "tz" (VStr DEFAULT_TZ) d))).

(** The default [start] gives a field, for the fields it knows. *)
Definition start_default (key : string) : option pyval :=
  if decide (key = "index") then Some (VInt 0)
  else if decide (key = "minute") then Some (VInt DEFAULT_MINUTE)
  else if decide (key = "hour") then Some (VInt DEFAULT_HOUR)
  else if decide (key = "tz") then Some (VStr DEFAULT_TZ)
  else None.

(** Concrete surroundings for the examples: a timezone database with two
    zones, an [int] that reads a few two-digit strings, and a catalog of
    five one-character messages. *)
Definition tz_sample (k : string) : bool :=
  String.eqb k "Europe/Minsk" || String.eqb k "UTC".

Definition int_sample (s : string) : option Z :=
  if String.eqb s "09" then Some 9
  else if String.eqb s "30" then Some 30
  else if String.eqb s "24" then Some 24
  else None.

Definition catalog5 : list pystr := [[49]; [50]; [51]; [52]; [53]]%N.

(** A transport that delivers everything, and one that delivers nothing. *)
Definition net_up : transport := fun _ _ => true.
Definition net_down : transport := fun _ _ => false.

(** The job [schedule_daily_job] arms for a chat at time [t]. *)
Definition daily_job (chat_id : Z) (t : pytime) : Job :=
  mk_job (job_name chat_id) chat_id t (Some {[ "chat_id" := VInt chat_id ]}).

(** Chat 7 as [start] and [settime 09:30] leave it, at cursor [i], with
    its timer armed. *)
Definition store7 (i : Z) : gmap string pyval :=
  {[ "tz" := VStr "Europe/Minsk"; "hour" := VInt 9; "minute" := VInt 30;
     "index" := VInt i ]}.

Definition timer7 : Job := daily_job 7 (mk_time 9 30 "Europe/Minsk").

Definition world7 (i : Z) : World :=
  mk_world {[ 7 := store7 i ]} (Some [timer7]) [].

(** The startup rule as the specification words it: after a start on
    [persisted], a chat has a timer exactly when its stored cursor is
    below the catalog length. *)
Definition startup_by_cursor (tz_known : string -> bool)
    (MESSAGES : list pystr) (persisted : gmap Z (gmap string pyval)) : Prop :=
  forall c d i,
    persisted !! c = Some d -> d !! "index" = Some (VInt i) ->
    ((1 <= timers (snd (boot tz_known persisted true [])) c)%nat
     <-> i < Z.of_nat (length MESSAGES)).

(** The invariant as the specification words it: in every reachable
    state a stored cursor lies in [0, len(catalog)] and the chat has a
    live timer exactly when the cursor is below the catalog length. *)
Definition cursor_timer_invariant (tz_known : string -> bool)
    (py_int : string -> option Z) (MESSAGES : list pystr) : Prop :=
  forall w, reachable tz_known py_int MESSAGES w ->
  forall c v, cursor w c = Some v ->
    exists i, v = VInt i /\ (0 <= i <= Z.of_nat (length MESSAGES)) /\
              ((1 <= timers w c)%nat <-> i < Z.of_nat (length MESSAGES)).

(** A stored cursor, when present, is an integer of [0, len(catalog)]. *)
Definition store_ok (MESSAGES : list pystr) (d : gmap string pyval) : Prop :=
  forall v, d !! "index" = Some v ->
            exists i, v = VInt i /\ 0 <= i <= Z.of_nat (length MESSAGES).

(** The invariant of the reachable states: every stored cursor is in
    range and no job name is live twice. *)
Definition world_ok (MESSAGES : list pystr) (w : World) : Prop :=
  (forall c d, chat_data w !! c = Some d -> store_ok MESSAGES d) /\
  (forall n, match job_queue w with
             | Some jobs => (live jobs n <= 1)%nat
             | None => True
             end).

(** A computation keeps [P], whether it returns or raises. *)
Definition preserves (P : World -> Prop) {A} (m : M A) : Prop :=
  forall w, P w -> P (snd (m w)).

(** The live jobs of a chat: the jobs that carry its name. *)
Definition jobs_of (w : World) (chat_id : Z) : list Job :=
  match job_queue w with
  | Some jobs => get_jobs_by_name jobs (job_name chat_id)
  | None => []
  end.

(** The number of colons of a string. *)
Fixpoint count_colons (s : string) : nat :=
  match s with
  | EmptyString => O
  | String c rest =>
      if Ascii.eqb c ":"%char then S (count_colons rest)
      else count_colons rest
  end.

(** The store [settime] leaves behind when it accepts [hh] and [mm]. *)
Definition with_time (hh mm : Z) (d : gmap string pyval)
  : gmap string pyval :=
  <["minute" := VInt mm]> (<["hour" := VInt hh]> d).

(** [k] fires of the same job in a row, each run to its end. *)
Fixpoint run_fires (MESSAGES : list pystr) (net : transport) (job : Job)
    (k : nat) (w : World) : World :=
  match k with
  | O => w
  | S k' => run_fires MESSAGES net job k'
              (snd (send_message_job MESSAGES net job w))
  end.

(** The commands that are neither a fire nor [reset]. *)
Definition keeps_progress (ev : event) : Prop :=
  match ev with
  | EFire _ | EReset _ => False
  | _ => True
  end.

(** The configuration fields of a dictionary are well formed: an hour
    of 0..23, a minute of 0..59 and a zone name the database knows, each
    when present. *)
Definition config_ok (tz_known : string -> bool) (d : gmap string pyval)
  : Prop :=
  (forall v, d !! "hour" = Some v -> exists h, v = VInt h /\ 0 <= h <= 23) /\
  (forall v, d !! "minute" = Some v -> exists m, v = VInt m /\ 0 <= m <= 59) /\
  (forall v, d !! "tz" = Some v -> exists k, v = VStr k /\ tz_known k = true).

(** Every stored configuration is well formed and every job of the
    queue is the daily job of a chat with stored data, at the time that
    data gives. *)
Definition in_sync (tz_known : string -> bool) (w : World) : Prop :=
  (forall c d, chat_data w !! c = Some d -> config_ok tz_known d) /\
  (forall jobs j, job_queue w = Some jobs -> In j jobs ->
     exists c d t, chat_data w !! c = Some d /\
                   get_user_time tz_known d = Ret t /\ j = daily_job c t).

(** Two dictionaries that agree outside the cursor. *)
Definition index_only (d d' : gmap string pyval) : Prop :=
  forall k, k <> "index" -> d' !! k = d !! k.

(** Chat 7 with a zone and cursor 3 stored, and its timer at the default
    time. *)
Definition world10 : World :=
  mk_world {[ 7 := {[ "tz" := VStr "Europe/Minsk"; "index" := VInt 3 ]} ]}
           (Some [daily_job 7 (mk_time 10 0 "Europe/Minsk")]) [].

(** The state after [start] in chat 7 on a fresh deployment. *)
Definition world_started : World :=
  snd (handle tz_sample int_sample catalog5 net_up (EStart 7)
              (mk_world ∅ (Some []) [])).

(** The state after [start] and then [pause] in chat 7 on a fresh
    deployment. *)
Definition world_paused : World :=
  snd (handle tz_sample int_sample catalog5 net_up (EPause 7) world_started).

(** The loader's failures as the specification words them: it raises
    exactly when the file is missing or was read and has no non-blank
    line. *)
Definition load_messages_by_lines (path : file) : Prop :=
  raises (load_messages path) <->
  path = Missing \/
  exists text, path = Existing (Ret text) /\
               Forall (fun line => blank line = true) (splitlines text).

(** A timezone database without the default zone (a system with no
    [Europe/Minsk] entry). *)
Definition tz_utc_only (k : string) : bool := String.eqb k "UTC".

(** Timezone resolution as the specification words it: it returns a
    zone for every dictionary. *)
Definition get_user_tz_never_raises (tz_known : string -> bool) : Prop :=
  forall data : gmap string pyval,
    exists z, get_user_tz tz_known data = Ret z.

(** The loop of [on_startup] over the items of [chat_data] in a given
    order.  [dict.items()] yields them in insertion order, which the
    map does not record; [on_startup] takes the order of the map. *)
Definition on_startup_over (tz_known : string -> bool)
    (items : list (Z * gmap string pyval)) : M unit :=
  for_each (fun item => schedule_daily_job tz_known (fst item) (snd item))
           items.

(* ===================================================================== *)
(** * Properties                                                         *)
(* ===================================================================== *)

(** ** Text *)

Lemma lstrip_nil_blank (s : pystr) : lstrip s = [] <-> blank s = true.
Proof.
  induction s as [|c s IH]; simpl; [tauto|].
  destruct (is_space c); simpl; [exact IH|].
  split; intros H; discriminate H.
Qed.

Lemma lstrip_head (s : pystr) (c : N) (rest : pystr) :
  lstrip s = c :: rest -> is_space c = false.
Proof.
  induction s as [|x s IH]; simpl; [discriminate|].
  destruct (is_space x) eqn:E; [exact IH|].
  intros [= -> _]. exact E.
Qed.

Lemma blank_rev (s : pystr) : blank (rev s) = blank s.
Proof.
  unfold blank. apply eq_true_iff_eq.
  rewrite !forallb_forall. split; intros H x Hx; apply H.
  - now apply in_rev in Hx.
  - now apply in_rev.
Qed.

Lemma lstrip_idem_blank (s : pystr) : blank (lstrip s) = true -> lstrip s = [].
Proof.
  destruct (lstrip s) as [|c rest] eqn:E; [reflexivity|].
  apply lstrip_head in E. simpl. rewrite E. discriminate.
Qed.

(** A line strips to the empty string exactly when it is blank. *)
Lemma strip_nil_blank (s : pystr) : strip s = [] <-> blank s = true.
Proof.
  unfold strip, rstrip. split.
  - intros H. apply lstrip_nil_blank, lstrip_idem_blank.
    rewrite <- blank_rev. apply lstrip_nil_blank.
    apply (f_equal (@rev N)) in H. rewrite rev_involutive in H. exact H.
  - intros H. apply lstrip_nil_blank in H. rewrite H. reflexivity.
Qed.

Lemma truthy_strip (s : pystr) : truthy (strip s) = true <-> blank s = false.
Proof.
  destruct (strip s) eqn:E; simpl.
  - apply strip_nil_blank in E. rewrite E. split; discriminate.
  - split; [|reflexivity]. intros _.
    destruct (blank s) eqn:B; [|reflexivity].
    apply strip_nil_blank in B. congruence.
Qed.

(** The text the loader keeps never starts or ends with whitespace. *)
Lemma strip_no_leading_space (s : pystr) (c : N) (rest : pystr) :
  strip s = c :: rest -> is_space c = false.
Proof.
  unfold strip, rstrip. intros H.
  destruct (lstrip s) as [|x xs] eqn:E; [discriminate H|].
  pose proof (lstrip_head _ _ _ E) as Hx.
  assert (Hsuf : forall l : pystr, exists pre, l = pre ++ lstrip l).
  { induction l as [|y l [pre IH]]; [exists []; reflexivity|].
    simpl. destruct (is_space y); [|exists []; reflexivity].
    exists (y :: pre). simpl. now f_equal. }
  destruct (Hsuf (rev (x :: xs))) as [pre Hpre].
  apply (f_equal (@rev N)) in Hpre.
  rewrite rev_involutive, rev_app_distr, H in Hpre.
  simpl in Hpre. now injection Hpre as -> _.
Qed.

(** Every line boundary is a whitespace character. *)
Lemma is_linebreak_space (c : N) : is_linebreak c = true -> is_space c = true.
Proof.
  unfold is_linebreak, is_space. intros H.
  repeat match type of H with
         | (_ || _)%bool = true => apply orb_true_iff in H as [H|H]
         | (_ && _)%bool = true => apply andb_true_iff in H as [? ?]
         end;
    repeat match goal with
           | H : (_ <=? _)%N = true |- _ => apply N.leb_le in H
           | H : (_ =? _)%N = true |- _ => apply N.eqb_eq in H
           end;
    repeat match goal with
           | |- (_ || _)%bool = true => apply orb_true_iff
           end;
    rewrite ?orb_true_iff, ?andb_true_iff, ?N.leb_le, ?N.eqb_eq; lia.
Qed.

(** The lines of a text are all blank exactly when the text holds
    nothing but whitespace. *)
Lemma splitlines_from_blank (n : nat) : forall (s cur : pystr),
  (length s <= n)%nat ->
  Forall (fun line => blank line = true) (splitlines_from cur s)
  <-> blank cur = true /\ blank s = true.
Proof.
  induction n as [|n IH]; intros s cur Hlen.
  - destruct s; [|simpl in Hlen; lia]. simpl.
    destruct cur as [|x cur]; [split; [now split|constructor]|].
    rewrite Forall_singleton, blank_rev. intuition congruence.
  - destruct s as [|c rest].
    + simpl. destruct cur as [|x cur]; [split; [now split|constructor]|].
      rewrite Forall_singleton, blank_rev. intuition congruence.
    + simpl in Hlen. simpl splitlines_from.
      destruct (is_linebreak c) eqn:Hlb.
      * apply is_linebreak_space in Hlb.
        change (blank (c :: rest)) with (is_space c && blank rest)%bool.
        rewrite Hlb. simpl.
        destruct rest as [|c' rest'].
        -- simpl. rewrite Forall_singleton, blank_rev. intuition congruence.
        -- destruct ((c =? 13)%N && (c' =? 10)%N)%bool eqn:Hcrlf.
           ++ apply andb_true_iff in Hcrlf as [_ Hlf].
              apply N.eqb_eq in Hlf. subst c'.
              rewrite Forall_cons, blank_rev, (IH rest' []) by (simpl in *; lia).
              simpl. intuition congruence.
           ++ rewrite Forall_cons, blank_rev,
                (IH (c' :: rest') []) by (simpl in *; lia).
              simpl. intuition congruence.
      * rewrite (IH rest (c :: cur)) by lia. simpl.
        destruct (is_space c); simpl; intuition congruence.
Qed.

Lemma splitlines_blank (text : pystr) :
  Forall (fun line => blank line = true) (splitlines text)
  <-> blank text = true.
Proof.
  unfold splitlines.
  rewrite (splitlines_from_blank (length text) text [] (le_n _)).
  simpl. tauto.
Qed.

(** ** The catalog loader *)

Lemma filter_truthy_strip (lines : list pystr) :
  filter (fun line => truthy (strip line) = true) lines
  = filter (fun line => blank line = false) lines.
Proof.
  induction lines as [|l lines IH]; [reflexivity|].
  rewrite !filter_cons, IH.
  destruct (decide (truthy (strip l) = true)) as [H|H];
    destruct (decide (blank l = false)) as [B|B]; try reflexivity.
  - apply truthy_strip in H. contradiction.
  - apply truthy_strip in B. contradiction.
Qed.

Lemma filter_nonblank_nil (lines : list pystr) :
  filter (fun line => blank line = false) lines = []
  <-> Forall (fun line => blank line = true) lines.
Proof.
  induction lines as [|l lines IH]; [split; constructor|].
  rewrite filter_cons. destruct (decide (blank l = false)) as [B|B].
  - split; [discriminate|]. intros H. inversion H; congruence.
  - rewrite IH. split; intros H.
    + constructor; [now destruct (blank l)|exact H].
    + now inversion H.
Qed.

(** The result of the loader, in terms of the non-blank lines. *)
Lemma load_messages_run (path : file) :
  load_messages path
  = match path with
    | Missing => Raise FileNotFoundError
    | Existing (Raise e) => Raise e
    | Existing (Ret text) =>
        match filter (fun line => blank line = false) (splitlines text) with
        | [] => Raise ValueError
        | kept => Ret (map strip kept)
        end
    end.
Proof.
  destruct path as [|[text|e]]; try reflexivity.
  unfold load_messages. rewrite filter_truthy_strip.
  now destruct (filter _ (splitlines text)).
Qed.

Lemma load_messages_raises (path : file) :
  raises (load_messages path) <->
  path = Missing \/
  (exists e, path = Existing (Raise e)) \/
  exists text, path = Existing (Ret text) /\
               Forall (fun line => blank line = true) (splitlines text).
Proof.
  rewrite load_messages_run. destruct path as [|[text|e]].
  - simpl. split; [now left|trivial].
  - destruct (filter _ (splitlines text)) as [|l kept] eqn:E; simpl.
    + split; [intros _|trivial]. right. right. exists text.
      split; [reflexivity|]. now apply filter_nonblank_nil.
    + split; [contradiction|].
      intros [[=]|[(e & [=])|(text' & [= <-] & H)]].
      apply filter_nonblank_nil in H. congruence.
  - simpl. split; [intros _|trivial]. right. left. eauto.
Qed.

(** C8, as the code has it.  [load_messages] raises exactly when the
    file is missing, when reading it as UTF-8 text raises (the error of
    [read_text] is passed on unchanged), or when it has no non-blank
    line; when it returns, the file was read, the catalog is not empty,
    no entry is the empty string, and the entries are the stripped
    non-blank lines of the file in file order. *)
Theorem load_messages_total_iff (path : file) :
  (raises (load_messages path) <->
     path = Missing \/
     (exists e, path = Existing (Raise e)) \/
     exists text, path = Existing (Ret text) /\
                  Forall (fun line => blank line = true) (splitlines text))
  /\ (forall e, path = Existing (Raise e) -> load_messages path = Raise e)
  /\ (forall msgs, load_messages path = Ret msgs ->
        msgs <> [] /\
        Forall (fun m => m <> []) msgs /\
        exists text, path = Existing (Ret text) /\
          msgs = map strip (filter (fun line => blank line = false)
                                   (splitlines text))).
Proof.
  split; [apply load_messages_raises|]. split; [now intros e ->|].
  intros msgs. rewrite load_messages_run.
  destruct path as [|[text|e]]; try discriminate.
  destruct (filter _ (splitlines text)) as [|l kept] eqn:E; [discriminate|].
  intros [= <-]. split; [discriminate|]. split.
  - apply Forall_forall. intros x Hx.
    apply list_elem_of_In in Hx.
    change (In x (map strip (l :: kept))) in Hx.
    apply in_map_iff in Hx. destruct Hx as (l' & <- & Hl).
    rewrite <- E in Hl.
    apply list_elem_of_In, list_elem_of_filter in Hl. destruct Hl as [Hl _].
    intros Hs. apply strip_nil_blank in Hs. congruence.
  - exists text. split; [reflexivity|]. now rewrite E.
Qed.

(** C8, as the specification words it, fails: a file that exists and
    whose bytes are not UTF-8 (a catalog saved as cp1251, say) makes
    [read_text] raise [UnicodeDecodeError], and the loader with it,
    though the file is not missing and no text without a non-blank line
    was read. *)
Lemma load_messages_by_lines_fails :
  ~ load_messages_by_lines (Existing (Raise UnicodeDecodeError)).
Proof.
  intros [H _]. destruct (H I) as [[=]|(text & [=] & _)].
Qed.

(** A file that exists makes the loader raise exactly when it holds
    nothing but whitespace. *)
Lemma load_messages_blank_file (text : pystr) :
  raises (load_messages (Existing (Ret text))) <-> blank text = true.
Proof.
  rewrite load_messages_raises, <- splitlines_blank.
  split.
  - intros [[=]|[(e & [=])|(text' & [= <-] & H)]]. exact H.
  - intros H. right. right. now exists text.
Qed.

(** What the loader keeps of a line has no whitespace at either end. *)
Lemma strip_no_trailing_space (s : pystr) (c : N) (pre : pystr) :
  strip s = pre ++ [c] -> is_space c = false.
Proof.
  unfold strip, rstrip. intros H.
  apply (f_equal (@rev N)) in H.
  rewrite rev_involutive, rev_app_distr in H. simpl in H.
  now apply lstrip_head in H.
Qed.

(** ** The job queue *)

Lemma live_app (a b : list Job) (n : string) :
  live (a ++ b) n = (live a n + live b n)%nat.
Proof. unfold live, get_jobs_by_name. now rewrite filter_app, length_app. Qed.

Lemma live_without_same (jobs : list Job) (n : string) :
  live (without n jobs) n = 0%nat.
Proof.
  unfold live, get_jobs_by_name, without.
  induction jobs as [|j jobs IH]; [reflexivity|].
  rewrite filter_cons. destruct (decide (name j <> n)) as [H|H]; [|exact IH].
  rewrite filter_cons. destruct (decide (name j = n)); [contradiction|exact IH].
Qed.

Lemma live_without_other (jobs : list Job) (n n' : string) :
  n <> n' -> live (without n' jobs) n = live jobs n.
Proof.
  intros Hn. unfold live, get_jobs_by_name, without.
  induction jobs as [|j jobs IH]; [reflexivity|].
  rewrite !filter_cons.
  destruct (decide (name j <> n')) as [H|H].
  - rewrite filter_cons. destruct (decide (name j = n)); simpl; now rewrite IH.
  - destruct (decide (name j = n)) as [E|E]; [|exact IH].
    exfalso. apply H. congruence.
Qed.

Lemma live_without_le (jobs : list Job) (n n' : string) :
  (live (without n' jobs) n <= live jobs n)%nat.
Proof.
  destruct (decide (n = n')) as [->|Hn].
  - rewrite live_without_same. lia.
  - rewrite live_without_other by exact Hn. lia.
Qed.

Lemma job_name_inj (c c' : Z) : job_name c = job_name c' -> c = c'.
Proof.
  unfold job_name. intros H.
  apply (inj (String.append "daily-")) in H.
  now apply (inj pretty) in H.
Qed.

Lemma schedule_removal_skip (pre rest : list Job) (j : Job) :
  Forall (fun x => name x <> name j) pre ->
  schedule_removal j (pre ++ j :: rest) = pre ++ rest.
Proof.
  induction pre as [|x pre IH]; intros H; simpl.
  - destruct (decide (j = j)); [reflexivity|contradiction].
  - inversion H as [|? ? Hx Hpre]; subst.
    destruct (decide (x = j)) as [->|_]; [contradiction|].
    now rewrite IH.
Qed.

(** The removal loop of [cancel_existing_job] empties the queue of the
    jobs it found, one object at a time, and of nothing else. *)
Lemma removal_loop cd ob (n : string) (rest pre : list Job) :
  Forall (fun x => name x <> n) pre ->
  for_each remove_job (get_jobs_by_name rest n)
           (mk_world cd (Some (pre ++ rest)) ob)
  = (Ret tt, mk_world cd (Some (pre ++ without n rest)) ob).
Proof.
  revert pre. induction rest as [|j rest IH]; intros pre Hpre.
  - reflexivity.
  - unfold get_jobs_by_name, without in *. rewrite !filter_cons.
    destruct (decide (name j = n)) as [E|E].
    + destruct (decide (name j <> n)); [contradiction|].
      simpl. unfold bind, remove_job at 1. simpl.
      rewrite schedule_removal_skip by (now subst n).
      now apply IH.
    + destruct (decide (name j <> n)); [|contradiction].
      replace (pre ++ j :: rest) with ((pre ++ [j]) ++ rest)
        by now rewrite <- app_assoc.
      rewrite IH by (apply Forall_app; split; [exact Hpre|now constructor]).
      now rewrite <- app_assoc.
Qed.

Lemma cancel_existing_job_run (c : Z) (w : World) :
  cancel_existing_job c w
  = (Ret tt, set_queue w (without (job_name c) <$> job_queue w)).
Proof.
  destruct w as [cd [jobs|] ob]; [|reflexivity].
  unfold cancel_existing_job, bind, get_job_queue, set_queue. simpl.
  exact (removal_loop cd ob (job_name c) jobs [] (Forall_nil_2 _)).
Qed.

Section JobQueue.

Variable tz_known : string -> bool.

Lemma schedule_daily_job_run (c : Z) (d : gmap string pyval) (w : World) :
  schedule_daily_job tz_known c d w
  = match job_queue w with
    | None => (Ret tt, w)
    | Some jobs =>
        let kept := without (job_name c) jobs in
        match get_user_time tz_known d with
        | Ret t =>
            (Ret tt,
             set_queue w (Some (kept ++ [daily_job c t])))
        | Raise e => (Raise e, set_queue w (Some kept))
        end
    end.
Proof.
  unfold schedule_daily_job, bind at 1, get_job_queue. simpl.
  destruct (job_queue w) as [jobs|] eqn:Q; [|reflexivity].
  unfold bind. rewrite cancel_existing_job_run, Q. simpl.
  unfold lift. destruct (get_user_time tz_known d); reflexivity.
Qed.

Lemma schedule_daily_job_chat_data c d w :
  chat_data (snd (schedule_daily_job tz_known c d w)) = chat_data w
  /\ outbox (snd (schedule_daily_job tz_known c d w)) = outbox w.
Proof.
  rewrite schedule_daily_job_run.
  destruct (job_queue w); [|easy].
  simpl. destruct (get_user_time tz_known d); easy.
Qed.

Lemma schedule_daily_job_timers_same c d w :
  (timers (snd (schedule_daily_job tz_known c d w)) c <= 1)%nat.
Proof.
  rewrite schedule_daily_job_run. unfold timers.
  destruct (job_queue w) as [jobs|] eqn:Q; simpl; [|rewrite Q; lia].
  destruct (get_user_time tz_known d); simpl.
  - rewrite live_app, live_without_same. unfold live, get_jobs_by_name.
    rewrite filter_cons. simpl. destruct (decide _); simpl; lia.
  - rewrite live_without_same. lia.
Qed.

Lemma schedule_daily_job_timers_other c c' d w :
  c <> c' ->
  timers (snd (schedule_daily_job tz_known c' d w)) c = timers w c.
Proof.
  intros Hc. rewrite schedule_daily_job_run. unfold timers.
  assert (Hn : job_name c <> job_name c')
    by (intros H; now apply job_name_inj in H).
  destruct (job_queue w) as [jobs|] eqn:Q; simpl; [|now rewrite Q].
  destruct (get_user_time tz_known d); simpl.
  - rewrite live_app, live_without_other by exact Hn.
    unfold live at 2, get_jobs_by_name. rewrite filter_cons. simpl.
    destruct (decide _) as [E|_]; [now symmetry in E|simpl; lia].
  - now rewrite live_without_other.
Qed.

Lemma run_schedules_timers calls : forall w c,
  In c (map fst calls) \/ (timers w c <= 1)%nat ->
  (timers (run_schedules tz_known calls w) c <= 1)%nat.
Proof.
  induction calls as [|[c' d] calls IH]; intros w c H; simpl.
  - destruct H as [[]|H]; exact H.
  - apply IH. destruct (decide (c' = c)) as [->|Hne].
    + right. apply schedule_daily_job_timers_same.
    + destruct H as [[H|H]|H]; [contradiction|now left|right].
      now rewrite schedule_daily_job_timers_other.
Qed.

(** C6.  [schedule_daily_job] leaves at most one live timer for its
    subscriber, whatever the queue held before (duplicates included)
    and whether it returns or raises; two calls in a row with the same
    configuration leave exactly one when the first returned; and after
    any sequence of calls, a subscriber that the sequence scheduled at
    least once, or that had at most one live timer before it, has at
    most one live timer. *)
Theorem schedule_daily_job_one_timer :
  (forall w c d,
      (timers (snd (schedule_daily_job tz_known c d w)) c <= 1)%nat)
  /\ (forall w c d jobs t,
        job_queue w = Some jobs -> get_user_time tz_known d = Ret t ->
        let w1 := snd (schedule_daily_job tz_known c d w) in
        let w2 := snd (schedule_daily_job tz_known c d w1) in
        timers w1 c = 1%nat /\ timers w2 c = 1%nat /\
        exists kept,
          job_queue w2 = Some (kept ++ [daily_job c t])
          /\ Forall (fun j => name j <> job_name c) kept)
  /\ (forall calls w c,
        In c (map fst calls) \/ (timers w c <= 1)%nat ->
        (timers (run_schedules tz_known calls w) c <= 1)%nat).
Proof.
  split; [intros; apply schedule_daily_job_timers_same|]. split.
  - intros w c d jobs t Q T w1 w2. subst w2 w1.
    assert (Hone : forall js,
               live (without (job_name c) js ++ [daily_job c t])
                    (job_name c) = 1%nat).
    { intros js. rewrite live_app, live_without_same.
      unfold live, get_jobs_by_name. rewrite filter_cons. simpl.
      destruct (decide _); [reflexivity|contradiction]. }
    rewrite !schedule_daily_job_run, Q, T. simpl. try rewrite T. simpl.
    unfold timers. simpl. rewrite !Hone. repeat split.
    eexists. split; [reflexivity|].
    apply Forall_forall. intros j Hj.
    unfold without in Hj. apply list_elem_of_filter in Hj. tauto.
  - intros calls w c H. now apply run_schedules_timers.
Qed.

End JobQueue.

(** ** The delivery callback *)

Lemma dict_truthy_lookup (d : gmap string pyval) (k : string) (v : pyval) :
  d !! k = Some v -> dict_truthy d = true.
Proof.
  intros H. unfold dict_truthy. apply bool_decide_eq_true.
  intros ->. now rewrite lookup_empty in H.
Qed.

Lemma dict_get_lookup (d : gmap string pyval) (k : string) (v dflt : pyval) :
  d !! k = Some v -> dict_get d k dflt = v.
Proof. intros H. unfold dict_get. now rewrite H. Qed.

Lemma py_getitem_in_range (l : list pystr) (i : Z) :
  0 <= i < Z.of_nat (length l) ->
  exists m, l !! Z.to_nat i = Some m /\ py_getitem l i = Ret m.
Proof.
  intros Hi. unfold py_getitem.
  destruct (l !! Z.to_nat i) as [m|] eqn:E.
  - exists m. split; [reflexivity|].
    replace (i <? 0) with false by (symmetry; apply Z.ltb_ge; lia).
    replace (0 <=? i) with true by (symmetry; apply Z.leb_le; lia).
    replace (i <? Z.of_nat (length l)) with true
      by (symmetry; apply Z.ltb_lt; lia).
    simpl. now rewrite E.
  - apply lookup_ge_None in E. lia.
Qed.

Section Delivery.

Variable MESSAGES : list pystr.

(** What one invocation of the callback does, branch by branch. *)
Lemma send_message_job_run (net : transport) (w : World) (job : Job) :
  send_message_job MESSAGES net job w
  = match job_data_chat_id job with
    | VInt c =>
        match chat_data w !! c with
        | None => (Ret tt, w)
        | Some d =>
            if dict_truthy d then
              match dict_get d "index" (VInt 0) with
              | VInt i =>
                  if Z.of_nat (length MESSAGES) <=? i then
                    let q := without (job_name c) <$> job_queue w in
                    if net c (Text FINISHED_NOTICE)
                    then (Ret tt,
                          mk_world (chat_data w) q
                            (outbox w ++ [(c, Text FINISHED_NOTICE)]))
                    else (Raise TransportError,
                          mk_world (chat_data w) q (outbox w))
                  else
                    match py_getitem MESSAGES i with
                    | Ret m =>
                        if net c (Text m)
                        then (Ret tt,
                              mk_world
                                (<[c := <["index" := VInt (i + 1)]> d]>
                                   (chat_data w))
                                (job_queue w)
                                (outbox w ++ [(c, Text m)]))
                        else (Raise TransportError, w)
                    | Raise e => (Raise e, w)
                    end
              | _ => (Raise TypeError, w)
              end
            else (Ret tt, w)
        end
    | _ => (Ret tt, w)
    end.
Proof.
  unfold send_message_job.
  destruct (job_data_chat_id job) as [c| |]; try reflexivity.
  unfold bind at 1, get_chat_data.
  destruct (chat_data w !! c) as [d|] eqn:Hc; [|reflexivity].
  destruct (dict_truthy d); [|reflexivity].
  destruct (dict_get d "index" (VInt 0)) as [i| |]; try reflexivity.
  unfold bind at 1, lift, ge_len.
  destruct (Z.of_nat (length MESSAGES) <=? i).
  - unfold bind. rewrite cancel_existing_job_run.
    unfold send_message, set_queue. simpl.
    destruct (net c (Text FINISHED_NOTICE)); reflexivity.
  - unfold bind at 1.
    destruct (py_getitem MESSAGES i) as [m|e]; [|reflexivity].
    unfold bind, send_message.
    destruct (net c (Text m)); [|reflexivity].
    unfold mutate, the_store. simpl. now rewrite Hc.
Qed.

(** C1.  A fire for a subscriber whose stored cursor [i] is within the
    catalog, over a transport that accepts the send, returns normally,
    delivers exactly [MESSAGES[i]] to that subscriber and nothing
    else, stores [i + 1] as the cursor, and leaves the timers and every
    other field and chat as they were. *)
Theorem send_message_job_delivers
    (net : transport) (w : World) (job : Job) (c : Z)
    (d : gmap string pyval) (i : Z) :
  job_data_chat_id job = VInt c ->
  chat_data w !! c = Some d ->
  d !! "index" = Some (VInt i) ->
  0 <= i < Z.of_nat (length MESSAGES) ->
  (forall m, MESSAGES !! Z.to_nat i = Some m -> net c (Text m) = true) ->
  exists m,
    MESSAGES !! Z.to_nat i = Some m /\
    send_message_job MESSAGES net job w
    = (Ret tt,
       mk_world (<[c := <["index" := VInt (i + 1)]> d]> (chat_data w))
                (job_queue w)
                (outbox w ++ [(c, Text m)])).
Proof.
  intros Hjob Hc Hidx Hi Hnet.
  destruct (py_getitem_in_range MESSAGES i Hi) as (m & Hm & Hget).
  exists m. split; [exact Hm|].
  rewrite send_message_job_run, Hjob, Hc.
  rewrite (dict_truthy_lookup _ _ _ Hidx), (dict_get_lookup _ _ _ _ Hidx).
  replace (Z.of_nat (length MESSAGES) <=? i) with false
    by (symmetry; apply Z.leb_gt; lia).
  now rewrite Hget, (Hnet m Hm).
Qed.

(** C4.  A fire for a subscriber whose stored cursor is at or past the
    end of the catalog removes every timer of that subscriber, leaves
    all stored data (the cursor included) as it was, and delivers the
    completion notice and nothing else (nothing at all when the
    transport rejects the notice). *)
Theorem send_message_job_finished
    (net : transport) (w : World) (job : Job) (c : Z)
    (d : gmap string pyval) (i : Z) :
  job_data_chat_id job = VInt c ->
  chat_data w !! c = Some d ->
  d !! "index" = Some (VInt i) ->
  Z.of_nat (length MESSAGES) <= i ->
  let w' := snd (send_message_job MESSAGES net job w) in
  chat_data w' = chat_data w /\
  cursor w' c = Some (VInt i) /\
  job_queue w' = without (job_name c) <$> job_queue w /\
  timers w' c = 0%nat /\
  outbox w' = outbox w ++ (if net c (Text FINISHED_NOTICE)
                           then [(c, Text FINISHED_NOTICE)] else []).
Proof.
  intros Hjob Hc Hidx Hi w'.
  assert (Hrun : w' = mk_world (chat_data w)
                        (without (job_name c) <$> job_queue w)
                        (outbox w ++ (if net c (Text FINISHED_NOTICE)
                                      then [(c, Text FINISHED_NOTICE)]
                                      else []))).
  { subst w'. rewrite send_message_job_run, Hjob, Hc.
    rewrite (dict_truthy_lookup _ _ _ Hidx), (dict_get_lookup _ _ _ _ Hidx).
    replace (Z.of_nat (length MESSAGES) <=? i) with true
      by (symmetry; apply Z.leb_le; lia).
    simpl. destruct (net c (Text FINISHED_NOTICE)); simpl;
      now rewrite ?app_nil_r. }
  rewrite Hrun. unfold cursor, timers. simpl. rewrite Hc.
  repeat split; try assumption.
  destruct (job_queue w); simpl; auto using live_without_same.
Qed.

(** C5.  A fire whose send the transport rejects raises the
    transport's error and leaves the stored data exactly as it was: the
    cursor has not moved and nothing has been delivered.  For a cursor
    within the catalog the whole world, timers included, is unchanged,
    so the same message is due at the next fire. *)
Theorem send_message_job_transport_failure
    (net : transport) (w : World) (job : Job) (c : Z)
    (d : gmap string pyval) (i : Z) :
  job_data_chat_id job = VInt c ->
  chat_data w !! c = Some d ->
  d !! "index" = Some (VInt i) ->
  0 <= i ->
  (forall m, MESSAGES !! Z.to_nat i = Some m -> net c (Text m) = false) ->
  (Z.of_nat (length MESSAGES) <= i -> net c (Text FINISHED_NOTICE) = false) ->
  let r := send_message_job MESSAGES net job w in
  fst r = Raise TransportError /\
  chat_data (snd r) = chat_data w /\
  cursor (snd r) c = Some (VInt i) /\
  outbox (snd r) = outbox w /\
  (i < Z.of_nat (length MESSAGES) -> r = (Raise TransportError, w)).
Proof.
  intros Hjob Hc Hidx Hi Hmsg Hnotice r.
  assert (Hcur : cursor w c = Some (VInt i))
    by (unfold cursor; now rewrite Hc).
  subst r. rewrite send_message_job_run, Hjob, Hc.
  rewrite (dict_truthy_lookup _ _ _ Hidx), (dict_get_lookup _ _ _ _ Hidx).
  destruct (Z.of_nat (length MESSAGES) <=? i) eqn:Hge.
  - apply Z.leb_le in Hge. simpl. rewrite (Hnotice Hge). simpl.
    repeat split; [exact Hcur|lia].
  - apply Z.leb_gt in Hge.
    destruct (py_getitem_in_range MESSAGES i) as (m & Hm & ->); [lia|].
    rewrite (Hmsg m Hm). simpl. repeat split. exact Hcur.
Qed.

(** C9.  A fire whose job data carries no subscriber id, or whose
    subscriber has no stored record, returns normally and changes
    nothing: no message, same stored data, same timers. *)
Theorem send_message_job_no_record
    (net : transport) (w : World) (job : Job) :
  data job = None \/
  (exists dd, data job = Some dd /\ dd !! "chat_id" = None) \/
  (exists c, job_data_chat_id job = VInt c /\ chat_data w !! c = None) ->
  send_message_job MESSAGES net job w = (Ret tt, w).
Proof.
  rewrite send_message_job_run. unfold job_data_chat_id.
  intros [H|[(dd & H & Hk)|(c & H & Hc)]].
  - now rewrite H.
  - rewrite H. unfold dict_get. now rewrite Hk.
  - unfold job_data_chat_id in H. now rewrite H, Hc.
Qed.

End Delivery.

(** ** Timezone resolution *)

(** C7, as the code has it.  With the default zone present in the
    timezone database, [get_user_tz] returns a zone for every
    dictionary: the stored name when it is a string the database knows,
    the default zone when the field is absent, unknown, malformed or not
    a string. *)
Theorem get_user_tz_total (tz_known : string -> bool)
    (data : gmap string pyval) :
  tz_known DEFAULT_TZ = true ->
  exists z,
    get_user_tz tz_known data = Ret z /\
    tz_known z = true /\
    z = match data !! "tz" with
        | Some (VStr k) => if tz_known k then k else DEFAULT_TZ
        | _ => DEFAULT_TZ
        end.
Proof.
  intros Hdef. unfold get_user_tz, dict_get, ZoneInfo.
  destruct (data !! "tz") as [[n|k|]|]; rewrite ?Hdef; eauto.
  destruct (tz_known k) eqn:Hk; rewrite ?Hdef; eauto.
Qed.

(** The default zone has to be in the database: the fallback calls
    [ZoneInfo] again, outside the [try]. *)
Lemma get_user_tz_default_missing (tz_known : string -> bool)
    (data : gmap string pyval) :
  tz_known DEFAULT_TZ = false ->
  data !! "tz" = None ->
  get_user_tz tz_known data = Raise ZoneInfoNotFoundError.
Proof.
  intros Hdef Hk. unfold get_user_tz, dict_get, ZoneInfo.
  now rewrite Hk, Hdef.
Qed.

(** C7, as the specification words it, fails: on a system whose
    timezone database has no entry for the default zone, an unknown
    stored name makes [get_user_tz] raise, because the fallback
    [ZoneInfo(DEFAULT_TZ)] runs outside the [try]. *)
Lemma get_user_tz_never_raises_fails : ~ get_user_tz_never_raises tz_utc_only.
Proof.
  intros H. destruct (H {[ "tz" := VStr "Mars/Phobos" ]}) as [z Hz].
  vm_compute in Hz. discriminate Hz.
Qed.

(** ** The [start] command *)

Lemma setdefault_lookup (k k' : string) (v : pyval) (d : gmap string pyval) :
  setdefault k v d !! k'
  = match d !! k' with
    | Some x => Some x
    | None => if decide (k' = k) then Some v else None
    end.
Proof.
  unfold setdefault. destruct (d !! k) as [x|] eqn:E.
  - destruct (d !! k') eqn:E'; [reflexivity|].
    destruct (decide (k' = k)) as [->|]; [congruence|reflexivity].
  - destruct (decide (k' = k)) as [->|Hne].
    + now rewrite lookup_insert_eq, E.
    + rewrite lookup_insert_ne by congruence. now destruct (d !! k').
Qed.

Lemma start_store_lookup (d : gmap string pyval) (k : string) :
  start_store d !! k
  = match d !! k with Some x => Some x | None => start_default k end.
Proof.
  unfold start_store, start_default. rewrite !setdefault_lookup.
  destruct (d !! k); [reflexivity|].
  repeat case_decide; subst; try reflexivity; discriminate.
Qed.

Lemma start_store_idem (d : gmap string pyval) :
  start_store (start_store d) = start_store d.
Proof.
  apply map_eq. intros k. rewrite !start_store_lookup.
  now destruct (d !! k), (start_default k).
Qed.

Lemma context_chat_data_present (c : Z) (w : World) (d : gmap string pyval) :
  chat_data w !! c = Some d -> context_chat_data c w = (Ret d, w).
Proof.
  intros H. unfold context_chat_data, the_store. rewrite H.
  destruct w as [cd q ob]. simpl in *. now rewrite (insert_id _ _ _ H).
Qed.

Lemma send_message_frame (net : transport) (c : Z) (m : outmsg) (w : World) :
  chat_data (snd (send_message net c m w)) = chat_data w /\
  job_queue (snd (send_message net c m w)) = job_queue w.
Proof. unfold send_message. now destruct (net c m). Qed.

Section Start.

Variable tz_known : string -> bool.

Lemma start_chat_data (net : transport) (c : Z) (w : World) :
  chat_data (snd (start tz_known net c w))
  = <[c := start_store (the_store w c)]> (chat_data w).
Proof.
  unfold start. unfold bind at 1 2 3 4, mutate, the_store. simpl.
  rewrite !lookup_insert_eq, !insert_insert_eq.
  fold (the_store w c).
  change (setdefault "index" _ _) with (start_store (the_store w c)).
  set (S := start_store (the_store w c)).
  set (w4 := mk_world (<[c:=S]> (chat_data w)) (job_queue w) (outbox w)).
  assert (H4 : chat_data w4 !! c = Some S) by apply lookup_insert_eq.
  unfold bind at 1. rewrite (context_chat_data_present c w4 S H4).
  unfold bind at 1.
  pose proof (schedule_daily_job_chat_data tz_known c S w4) as [Hcd _].
  destruct (schedule_daily_job tz_known c S w4) as [[[]|e] w5];
    simpl in Hcd; [|exact Hcd].
  assert (H5 : chat_data w5 !! c = Some S) by now rewrite Hcd.
  unfold bind at 1. rewrite (context_chat_data_present c w5 S H5).
  unfold bind, lift.
  destruct (get_user_time tz_known S); [|exact Hcd].
  destruct (dict_item S "tz"); [|exact Hcd].
  rewrite <- Hcd. apply send_message_frame.
Qed.

(** C10.  [start] on a chat that already has stored data keeps every
    field that is present at its stored value (the timezone, the hour,
    the minute and the cursor among them), gives an absent field its
    default and nothing else, leaves the other chats alone, and so
    changes no stored data when it is repeated. *)
Theorem start_keeps_existing_fields
    (net : transport) (w : World) (c : Z) (d : gmap string pyval) :
  chat_data w !! c = Some d ->
  let w' := snd (start tz_known net c w) in
  exists d',
    chat_data w' !! c = Some d' /\
    (forall k v, d !! k = Some v -> d' !! k = Some v) /\
    (forall k, d !! k = None -> d' !! k = start_default k) /\
    (forall c', c' <> c -> chat_data w' !! c' = chat_data w !! c') /\
    (forall net', chat_data (snd (start tz_known net' c w')) = chat_data w').
Proof.
  intros Hc w'. exists (start_store d).
  assert (Hw' : chat_data w' = <[c := start_store d]> (chat_data w)).
  { subst w'. rewrite start_chat_data. unfold the_store. now rewrite Hc. }
  rewrite Hw'. split; [apply lookup_insert_eq|].
  split; [|split; [|split]].
  - intros k v Hk. now rewrite start_store_lookup, Hk.
  - intros k Hk. now rewrite start_store_lookup, Hk.
  - intros c' Hne. now rewrite lookup_insert_ne.
  - intros net'. rewrite start_chat_data. unfold the_store.
    rewrite Hw', lookup_insert_eq, insert_insert_eq.
    now rewrite start_store_idem.
Qed.

End Start.

(** ** Startup *)

Lemma named_app (a b : list Job) (n : string) :
  get_jobs_by_name (a ++ b) n = get_jobs_by_name a n ++ get_jobs_by_name b n.
Proof. unfold get_jobs_by_name. apply filter_app. Qed.

Lemma named_without_same (jobs : list Job) (n : string) :
  get_jobs_by_name (without n jobs) n = [].
Proof.
  pose proof (live_without_same jobs n) as H. unfold live in H.
  now destruct (get_jobs_by_name (without n jobs) n).
Qed.

Lemma named_without_other (jobs : list Job) (n n' : string) :
  n <> n' -> get_jobs_by_name (without n' jobs) n = get_jobs_by_name jobs n.
Proof.
  intros Hn. unfold get_jobs_by_name, without.
  induction jobs as [|j jobs IH]; [reflexivity|].
  rewrite !filter_cons.
  destruct (decide (name j <> n')) as [H|H].
  - rewrite filter_cons. destruct (decide (name j = n)); now rewrite IH.
  - destruct (decide (name j = n)) as [E|E]; [|exact IH].
    exfalso. apply H. congruence.
Qed.

Lemma named_daily_job (c c' : Z) (t : pytime) :
  get_jobs_by_name [daily_job c t] (job_name c')
  = if decide (c = c') then [daily_job c t] else [].
Proof.
  unfold get_jobs_by_name. rewrite filter_cons. simpl.
  destruct (decide (job_name c = job_name c')) as [E|E];
    destruct (decide (c = c')) as [Hc|Hc]; try reflexivity.
  - now apply job_name_inj in E.
  - now subst.
Qed.

Section Startup.

Variable tz_known : string -> bool.

(** The loop of [on_startup], over any list of entries with distinct
    chat ids and constructible times. *)
Lemma startup_loop (l : list (Z * gmap string pyval)) :
  forall cd jobs ob,
    NoDup (map fst l) ->
    (forall c d, In (c, d) l -> exists t, get_user_time tz_known d = Ret t) ->
    exists jobs',
      for_each (fun item => schedule_daily_job tz_known (fst item) (snd item))
               l (mk_world cd (Some jobs) ob)
      = (Ret tt, mk_world cd (Some jobs') ob) /\
      (forall c d, In (c, d) l ->
         exists t, get_user_time tz_known d = Ret t /\
                   get_jobs_by_name jobs' (job_name c) = [daily_job c t]) /\
      (forall c, ~ In c (map fst l) ->
         get_jobs_by_name jobs' (job_name c)
         = get_jobs_by_name jobs (job_name c)).
Proof.
  induction l as [|[c0 d0] l IH]; intros cd jobs ob Hnd Htime.
  - exists jobs. simpl. split; [reflexivity|]. split; [intros ? ? []|reflexivity].
  - simpl in Hnd. apply NoDup_cons in Hnd as [Hc0 Hnd].
    destruct (Htime c0 d0 (or_introl eq_refl)) as [t0 Ht0].
    destruct (IH cd (without (job_name c0) jobs ++ [daily_job c0 t0]) ob Hnd)
      as (jobs' & Hrun & Hin & Hout).
    { intros c d H. apply (Htime c d). now right. }
    exists jobs'. split; [|split].
    + simpl. unfold bind. rewrite schedule_daily_job_run. simpl.
      rewrite Ht0. exact Hrun.
    + intros c d [[= <- <-]|H]; [|now apply Hin].
      exists t0. split; [exact Ht0|].
      rewrite Hout by (intros H; apply Hc0; now apply list_elem_of_In).
      rewrite named_app, named_without_same, named_daily_job.
      now destruct (decide (c0 = c0)).
    + intros c Hc. simpl in Hc.
      rewrite Hout by tauto.
      rewrite named_app, named_daily_job.
      destruct (decide (c0 = c)) as [->|Hne]; [tauto|].
      rewrite app_nil_r. apply named_without_other.
      intros E. apply job_name_inj in E. congruence.
Qed.

(** C2, as the code has it.  With the scheduler active and stored
    time fields from which a time can be built, a start returns
    normally, keeps the persisted data, and arms exactly one timer for
    every persisted chat, at the chat's stored time and whatever its
    cursor is; a chat with no entry gets none. *)
Theorem on_startup_schedules_every_entry
    (persisted : gmap Z (gmap string pyval)) (sent : list (Z * outmsg)) :
  (forall c d, persisted !! c = Some d ->
               exists t, get_user_time tz_known d = Ret t) ->
  exists jobs,
    boot tz_known persisted true sent
    = (Ret tt, mk_world persisted (Some jobs) sent) /\
    (forall c d, persisted !! c = Some d ->
       exists t, get_user_time tz_known d = Ret t /\
                 get_jobs_by_name jobs (job_name c) = [daily_job c t] /\
                 timers (mk_world persisted (Some jobs) sent) c = 1%nat) /\
    (forall c, persisted !! c = None ->
       timers (mk_world persisted (Some jobs) sent) c = 0%nat).
Proof.
  intros Htime.
  destruct (startup_loop (map_to_list persisted) persisted [] sent)
    as (jobs & Hrun & Hin & Hout).
  - exact (NoDup_fst_map_to_list persisted).
  - intros c d H. apply (Htime c d).
    now apply elem_of_map_to_list, list_elem_of_In.
  - exists jobs. split; [exact Hrun|]. split.
    + intros c d Hc.
      destruct (Hin c d) as (t & Ht & Hj).
      { now apply list_elem_of_In, elem_of_map_to_list. }
      exists t. repeat split; try assumption.
      unfold timers, live. simpl. now rewrite Hj.
    + intros c Hc. unfold timers, live. simpl. rewrite Hout; [reflexivity|].
      intros H. apply in_map_iff in H as ([c' d] & <- & H).
      apply list_elem_of_In, elem_of_map_to_list in H. simpl in Hc.
      congruence.
Qed.

(** Without a scheduler a start arms nothing. *)
Lemma on_startup_no_scheduler
    (persisted : gmap Z (gmap string pyval)) (sent : list (Z * outmsg)) :
  boot tz_known persisted false sent
  = (Ret tt, mk_world persisted None sent).
Proof.
  unfold boot, on_startup, bind, get_chat_data. simpl.
  induction (map_to_list persisted) as [|item l IH]; [reflexivity|].
  simpl. unfold bind. now rewrite schedule_daily_job_run.
Qed.

End Startup.

(** C2, as the specification words it, fails: a chat stored with cursor
    5 of a catalog of 5 gets a timer at startup all the same. *)
Lemma startup_by_cursor_fails :
  ~ startup_by_cursor tz_sample catalog5 {[ 7 := {[ "index" := VInt 5 ]} ]}.
Proof.
  intros H.
  specialize (H 7 {[ "index" := VInt 5 ]} 5 eq_refl eq_refl).
  assert (Ht : timers (snd (boot tz_sample
                              {[ 7 := {[ "index" := VInt 5 ]} ]} true [])) 7
               = 1%nat) by (vm_compute; reflexivity).
  rewrite Ht in H. destruct H as [H _].
  specialize (H (le_n 1)). vm_compute in H. discriminate H.
Qed.

(** ** The reachable states *)

Lemma preserves_ret (P : World -> Prop) {A} (a : A) : preserves P (ret a).
Proof. intros w H. exact H. Qed.

Lemma preserves_raise (P : World -> Prop) {A} (e : exn) :
  preserves P (@raise A e).
Proof. intros w H. exact H. Qed.

Lemma preserves_lift (P : World -> Prop) {A} (r : result A) :
  preserves P (lift r).
Proof. intros w H. exact H. Qed.

Lemma preserves_bind (P : World -> Prop) {A B} (m : M A) (k : A -> M B) :
  preserves P m -> (forall a, preserves P (k a)) -> preserves P (bind m k).
Proof.
  intros Hm Hk w H. unfold bind. specialize (Hm w H).
  destruct (m w) as [[a|e] w1]; simpl in *; [now apply Hk|exact Hm].
Qed.

Lemma preserves_for_each (P : World -> Prop) {A} (f : A -> M unit)
    (l : list A) :
  (forall x, preserves P (f x)) -> preserves P (for_each f l).
Proof.
  intros Hf. induction l as [|x l IH]; simpl.
  - apply preserves_ret.
  - apply preserves_bind; [apply Hf|intros _; exact IH].
Qed.

Section Invariant.

Variable tz_known : string -> bool.
Variable py_int : string -> option Z.
Variable MESSAGES : list pystr.

Abbreviation ok := (world_ok MESSAGES).
Abbreviation sok := (store_ok MESSAGES).

Lemma store_ok_empty : sok ∅.
Proof. intros v H. now rewrite lookup_empty in H. Qed.

Lemma store_ok_insert_other (k : string) (v : pyval) d :
  k <> "index" -> sok d -> sok (<[k := v]> d).
Proof. intros Hk H x Hx. rewrite lookup_insert_ne in Hx by exact Hk. auto. Qed.

Lemma store_ok_insert_index (i : Z) d :
  0 <= i <= Z.of_nat (length MESSAGES) -> sok (<["index" := VInt i]> d).
Proof.
  intros Hi x Hx. rewrite lookup_insert_eq in Hx. injection Hx as <-. eauto.
Qed.

Lemma store_ok_setdefault_other (k : string) (v : pyval) d :
  k <> "index" -> sok d -> sok (setdefault k v d).
Proof.
  intros Hk H. unfold setdefault.
  destruct (d !! k); [exact H|now apply store_ok_insert_other].
Qed.

Lemma store_ok_setdefault_index d : sok d -> sok (setdefault "index" (VInt 0) d).
Proof.
  intros H. unfold setdefault.
  destruct (d !! "index"); [exact H|apply store_ok_insert_index; lia].
Qed.

Lemma ok_the_store (w : World) (c : Z) : ok w -> sok (the_store w c).
Proof.
  intros [H _]. unfold the_store.
  destruct (chat_data w !! c) eqn:E; [now apply (H c)|apply store_ok_empty].
Qed.

Lemma ok_set_store (w : World) (c : Z) d :
  ok w -> sok d ->
  ok (mk_world (<[c := d]> (chat_data w)) (job_queue w) (outbox w)).
Proof.
  intros [Hd Hq] H. split; [|exact Hq]. simpl. intros c' d' Hc'.
  destruct (decide (c = c')) as [->|Hne].
  - rewrite lookup_insert_eq in Hc'. now injection Hc' as <-.
  - rewrite lookup_insert_ne in Hc' by exact Hne. now apply (Hd c').
Qed.

Lemma ok_mutate (c : Z) (f : gmap string pyval -> gmap string pyval) :
  (forall d, sok d -> sok (f d)) -> preserves ok (mutate c f).
Proof.
  intros Hf w H. unfold mutate. simpl.
  apply ok_set_store; [exact H|]. now apply Hf, ok_the_store.
Qed.

Lemma ok_context_chat_data (c : Z) : preserves ok (context_chat_data c).
Proof.
  intros w H. unfold context_chat_data. simpl.
  apply ok_set_store; [exact H|]. now apply ok_the_store.
Qed.

Lemma ok_send_message (net : transport) (c : Z) (m : outmsg) :
  preserves ok (send_message net c m).
Proof. intros w H. unfold send_message. now destruct (net c m). Qed.

Lemma ok_without (w : World) (n : string) :
  ok w -> ok (set_queue w (without n <$> job_queue w)).
Proof.
  intros [Hd Hq]. split; [exact Hd|]. simpl. intros n'. specialize (Hq n').
  destruct (job_queue w) as [jobs|]; simpl; [|exact I].
  pose proof (live_without_le jobs n' n). lia.
Qed.

Lemma ok_cancel_existing_job (c : Z) : preserves ok (cancel_existing_job c).
Proof. intros w H. rewrite cancel_existing_job_run. now apply ok_without. Qed.

Lemma ok_schedule_daily_job (c : Z) d :
  preserves ok (schedule_daily_job tz_known c d).
Proof.
  intros w H. rewrite schedule_daily_job_run.
  pose proof (ok_without w (job_name c) H) as [Hd Hq].
  destruct (job_queue w) as [jobs|] eqn:Q; [|exact H]. simpl in *.
  destruct (get_user_time tz_known d) as [t|e]; simpl; [|now split].
  split; [exact Hd|]. simpl. intros n. specialize (Hq n).
  rewrite live_app. unfold live at 2. destruct (decide (n = job_name c)) as [->|Hn].
  - rewrite live_without_same. unfold get_jobs_by_name.
    rewrite filter_cons. simpl. destruct (decide _); simpl; lia.
  - unfold get_jobs_by_name. rewrite filter_cons. simpl.
    destruct (decide _) as [E|_]; [now symmetry in E|simpl; lia].
Qed.

Lemma ok_send_message_job (net : transport) (job : Job) :
  preserves ok (send_message_job MESSAGES net job).
Proof.
  intros w H. rewrite send_message_job_run.
  destruct (job_data_chat_id job) as [c| |]; try exact H.
  destruct (chat_data w !! c) as [d|] eqn:Hc; [|exact H].
  destruct (dict_truthy d); [|exact H].
  destruct (dict_get d "index" (VInt 0)) as [i| |] eqn:Hidx; try exact H.
  destruct (Z.of_nat (length MESSAGES) <=? i) eqn:Hge.
  - pose proof (ok_without w (job_name c) H) as Hw. simpl.
    destruct (net c (Text FINISHED_NOTICE)); exact Hw.
  - destruct (py_getitem MESSAGES i) as [m|e]; [|exact H].
    destruct (net c (Text m)); [|exact H]. simpl.
    apply ok_set_store; [exact H|]. apply store_ok_insert_index.
    apply Z.leb_gt in Hge. split; [|lia].
    destruct H as [Hd _]. unfold dict_get in Hidx.
    destruct (d !! "index") as [v|] eqn:Hv.
    + destruct (Hd c d Hc v Hv) as (i' & -> & Hi').
      injection Hidx as ->. lia.
    + injection Hidx as <-. lia.
Qed.

Ltac preserve :=
  repeat first
    [ apply preserves_ret | apply preserves_raise | apply preserves_lift
    | apply ok_send_message | apply ok_context_chat_data
    | apply ok_cancel_existing_job | apply ok_schedule_daily_job
    | apply ok_mutate; intros ? ?;
      first [ apply store_ok_setdefault_index; assumption
            | apply store_ok_setdefault_other; [discriminate|assumption]
            | apply store_ok_insert_other; [discriminate|assumption]
            | apply store_ok_insert_index; lia ]
    | apply preserves_bind; [|intros ?]
    | progress cbv zeta
    | match goal with
      | |- preserves _ (match ?x with _ => _ end) => destruct x
      end ].

Lemma ok_start net c : preserves ok (start tz_known net c).
Proof. unfold start. preserve. Qed.

Lemma ok_settime net c args : preserves ok (settime tz_known py_int net c args).
Proof. unfold settime. preserve. Qed.

Lemma ok_settz net c args : preserves ok (settz tz_known net c args).
Proof. unfold settz. preserve. Qed.

Lemma ok_status net c : preserves ok (status MESSAGES net c).
Proof. unfold status. preserve. Qed.

Lemma ok_pause net c : preserves ok (pause net c).
Proof. unfold pause. preserve. Qed.

Lemma ok_resume net c : preserves ok (resume tz_known net c).
Proof. unfold resume. preserve. Qed.

Lemma ok_reset net c : preserves ok (reset net c).
Proof. unfold reset. preserve. Qed.

Lemma ok_on_startup : preserves ok (on_startup tz_known).
Proof.
  unfold on_startup. apply preserves_bind; [intros w H; exact H|].
  intros cd. apply preserves_for_each. intros x. apply ok_schedule_daily_job.
Qed.

Lemma ok_handle net ev : preserves ok (handle tz_known py_int MESSAGES net ev).
Proof.
  destruct ev; simpl;
    auto using ok_start, ok_settime, ok_settz, ok_status, ok_pause,
               ok_resume, ok_reset, ok_send_message_job.
  intros w [Hd Hq]. unfold boot. apply ok_on_startup.
  split; [exact Hd|]. simpl. intros n.
  destruct (job_queue w); [|exact I].
  unfold live, get_jobs_by_name. rewrite filter_nil. simpl. lia.
Qed.

Lemma reachable_ok (w : World) :
  reachable tz_known py_int MESSAGES w -> ok w.
Proof.
  induction 1 as [scheduler|w net ev _ IH _].
  - split; simpl.
    + intros c d H. now rewrite lookup_empty in H.
    + intros n. destruct scheduler; [|exact I].
      unfold live, get_jobs_by_name. rewrite filter_nil. simpl. lia.
  - now apply ok_handle.
Qed.

(** C3, as the code has it.  In every reachable state, a stored cursor
    is an integer between 0 and the catalog length, both included, and
    a subscriber has at most one live timer. *)
Theorem reachable_cursor_in_range (w : World) :
  reachable tz_known py_int MESSAGES w ->
  forall c,
    (forall v, cursor w c = Some v ->
               exists i, v = VInt i /\
                         0 <= i <= Z.of_nat (length MESSAGES)) /\
    (timers w c <= 1)%nat.
Proof.
  intros Hr c. destruct (reachable_ok w Hr) as [Hd Hq]. split.
  - unfold cursor. intros v Hv.
    destruct (chat_data w !! c) as [d|] eqn:Hc; [|discriminate].
    exact (Hd c d Hc v Hv).
  - unfold timers. specialize (Hq (job_name c)).
    destruct (job_queue w); [exact Hq|simpl; lia].
Qed.

End Invariant.

(** C3, as the specification words it, fails: after [start] and then
    [pause], chat 7 has cursor 0 of 5 and no timer. *)
Lemma cursor_timer_invariant_fails :
  ~ cursor_timer_invariant tz_sample int_sample catalog5.
Proof.
  intros H.
  pose (w0 := mk_world ∅ (Some []) []).
  pose (w1 := snd (handle tz_sample int_sample catalog5 net_up (EStart 7) w0)).
  pose (w2 := snd (handle tz_sample int_sample catalog5 net_up (EPause 7) w1)).
  assert (Hr : reachable tz_sample int_sample catalog5 w2).
  { apply reach_step; [apply reach_step; [|exact I]|exact I].
    exact (reach_init tz_sample int_sample catalog5 true). }
  assert (Hc : cursor w2 7 = Some (VInt 0)) by (vm_compute; reflexivity).
  assert (Ht : timers w2 7 = 0%nat) by (vm_compute; reflexivity).
  destruct (H w2 Hr 7 (VInt 0) Hc) as (i & [= <-] & _ & Hiff).
  rewrite Ht in Hiff. simpl in Hiff. lia.
Qed.

(** ** The statements at concrete inputs *)

Lemma load_messages_total_iff_witness :
  load_messages (Existing (Ret [32; 49; 10; 9; 13; 10; 50; 32]%N))
  = Ret [[49]; [50]]%N
  /\ [[49]; [50]]%N <> [].
Proof.
  split; [reflexivity|].
  exact (proj1 (proj2 (proj2 (load_messages_total_iff
                         (Existing (Ret [32; 49; 10; 9; 13; 10; 50; 32]%N))))
                      [[49]; [50]]%N eq_refl)).
Defined.

Lemma schedule_daily_job_one_timer_witness :
  let w1 := snd (schedule_daily_job tz_sample 7 (store7 0) (world7 0)) in
  let w2 := snd (schedule_daily_job tz_sample 7 (store7 0) w1) in
  timers w2 7 = 1%nat.
Proof.
  exact (proj1 (proj2
    (proj1 (proj2 (schedule_daily_job_one_timer tz_sample))
       (world7 0) 7 (store7 0) [timer7] (mk_time 9 30 "Europe/Minsk")
       eq_refl eq_refl))).
Defined.

Lemma send_message_job_delivers_witness :
  exists m,
    catalog5 !! Z.to_nat 2 = Some m /\
    send_message_job catalog5 net_up timer7 (world7 2)
    = (Ret tt,
       mk_world (<[7 := <["index" := VInt (2 + 1)]> (store7 2)]>
                   (chat_data (world7 2)))
                (job_queue (world7 2))
                (outbox (world7 2) ++ [(7, Text m)])).
Proof.
  apply (send_message_job_delivers catalog5 net_up (world7 2) timer7 7
           (store7 2) 2).
  - reflexivity.
  - vm_compute; reflexivity.
  - vm_compute; reflexivity.
  - simpl; lia.
  - intros m _. reflexivity.
Defined.

Lemma send_message_job_finished_witness :
  let w' := snd (send_message_job catalog5 net_up timer7 (world7 5)) in
  chat_data w' = chat_data (world7 5) /\
  cursor w' 7 = Some (VInt 5) /\
  job_queue w' = without (job_name 7) <$> job_queue (world7 5) /\
  timers w' 7 = 0%nat /\
  outbox w' = outbox (world7 5) ++ (if net_up 7 (Text FINISHED_NOTICE)
                                    then [(7, Text FINISHED_NOTICE)] else []).
Proof.
  apply (send_message_job_finished catalog5 net_up (world7 5) timer7 7
           (store7 5) 5).
  - reflexivity.
  - vm_compute; reflexivity.
  - vm_compute; reflexivity.
  - simpl; lia.
Defined.

Lemma send_message_job_transport_failure_witness :
  let r := send_message_job catalog5 net_down timer7 (world7 2) in
  fst r = Raise TransportError /\
  chat_data (snd r) = chat_data (world7 2) /\
  cursor (snd r) 7 = Some (VInt 2) /\
  outbox (snd r) = outbox (world7 2) /\
  (2 < Z.of_nat (length catalog5) -> r = (Raise TransportError, world7 2)).
Proof.
  apply (send_message_job_transport_failure catalog5 net_down (world7 2)
           timer7 7 (store7 2) 2).
  - reflexivity.
  - vm_compute; reflexivity.
  - vm_compute; reflexivity.
  - lia.
  - intros m _. reflexivity.
  - intros _. reflexivity.
Defined.

Lemma send_message_job_no_record_witness :
  send_message_job catalog5 net_up (daily_job 8 (mk_time 10 0 "UTC"))
                   (world7 2)
  = (Ret tt, world7 2).
Proof.
  apply (send_message_job_no_record catalog5 net_up (world7 2)
           (daily_job 8 (mk_time 10 0 "UTC"))).
  right. right. exists 8. split; vm_compute; reflexivity.
Defined.

Lemma get_user_tz_total_witness :
  exists z,
    get_user_tz tz_sample {[ "tz" := VStr "Mars/Phobos" ]} = Ret z /\
    tz_sample z = true /\
    z = match ({[ "tz" := VStr "Mars/Phobos" ]} : gmap string pyval) !! "tz"
        with
        | Some (VStr k) => if tz_sample k then k else DEFAULT_TZ
        | _ => DEFAULT_TZ
        end.
Proof.
  apply (get_user_tz_total tz_sample {[ "tz" := VStr "Mars/Phobos" ]}).
  reflexivity.
Defined.

Lemma start_keeps_existing_fields_witness :
  let w' := snd (start tz_sample net_up 7 (world7 2)) in
  exists d',
    chat_data w' !! 7 = Some d' /\
    (forall k v, store7 2 !! k = Some v -> d' !! k = Some v) /\
    (forall k, store7 2 !! k = None -> d' !! k = start_default k) /\
    (forall c', c' <> 7 -> chat_data w' !! c' = chat_data (world7 2) !! c') /\
    (forall net', chat_data (snd (start tz_sample net' 7 w')) = chat_data w').
Proof.
  apply (start_keeps_existing_fields tz_sample net_up (world7 2) 7 (store7 2)).
  vm_compute; reflexivity.
Defined.

Lemma on_startup_schedules_every_entry_witness :
  exists jobs,
    boot tz_sample {[ 7 := store7 1 ]} true []
    = (Ret tt, mk_world {[ 7 := store7 1 ]} (Some jobs) []) /\
    (forall c d, ({[ 7 := store7 1 ]} : gmap Z (gmap string pyval)) !! c
                 = Some d ->
       exists t, get_user_time tz_sample d = Ret t /\
                 get_jobs_by_name jobs (job_name c) = [daily_job c t] /\
                 timers (mk_world {[ 7 := store7 1 ]} (Some jobs) []) c
                 = 1%nat) /\
    (forall c, ({[ 7 := store7 1 ]} : gmap Z (gmap string pyval)) !! c = None ->
       timers (mk_world {[ 7 := store7 1 ]} (Some jobs) []) c = 0%nat).
Proof.
  apply (on_startup_schedules_every_entry tz_sample {[ 7 := store7 1 ]} []).
  intros c d H. apply lookup_singleton_Some in H as [_ <-].
  exists (mk_time 9 30 "Europe/Minsk"). vm_compute; reflexivity.
Defined.

Lemma reachable_cursor_in_range_witness :
  let w := snd (handle tz_sample int_sample catalog5 net_up (EStart 7)
                       (mk_world ∅ (Some []) [])) in
  reachable tz_sample int_sample catalog5 w /\
  (forall v, cursor w 7 = Some v ->
             exists i, v = VInt i /\ 0 <= i <= Z.of_nat (length catalog5)) /\
  (timers w 7 <= 1)%nat.
Proof.
  assert (Hr : reachable tz_sample int_sample catalog5
                 (snd (handle tz_sample int_sample catalog5 net_up (EStart 7)
                              (mk_world ∅ (Some []) [])))).
  { apply reach_step; [|exact I].
    exact (reach_init tz_sample int_sample catalog5 true). }
  split; [exact Hr|].
  exact (reachable_cursor_in_range tz_sample int_sample catalog5 _ Hr 7).
Defined.

(** ** The specification's scenarios, evaluated *)

(** A fire at cursor 2 of 5 delivers [catalog[2]] and stores cursor 3. *)
Example fire_cursor_2_of_5 :
  let w' := snd (send_message_job catalog5 net_up timer7 (world7 2)) in
  outbox w' = [(7, Text [51%N])] /\ cursor w' 7 = Some (VInt 3) /\
  timers w' 7 = 1%nat.
Proof. vm_compute. auto. Qed.

(** A fire at cursor 5 of 5 delivers the notice only and leaves no
    timer. *)
Example fire_cursor_5_of_5 :
  let w' := snd (send_message_job catalog5 net_up timer7 (world7 5)) in
  outbox w' = [(7, Text FINISHED_NOTICE)] /\ cursor w' 7 = Some (VInt 5) /\
  timers w' 7 = 0%nat.
Proof. vm_compute. auto. Qed.

(** The fire that delivers the last message leaves the cursor at the
    catalog length with the timer still armed: the timer goes at the
    next fire. *)
Example timer_outlives_last_delivery :
  let w' := snd (send_message_job catalog5 net_up timer7 (world7 4)) in
  cursor w' 7 = Some (VInt 5) /\ timers w' 7 = 1%nat.
Proof. vm_compute. auto. Qed.

(** A transport failure at cursor 2 leaves cursor 2 and the timer. *)
Example fire_transport_down :
  send_message_job catalog5 net_down timer7 (world7 2)
  = (Raise TransportError, world7 2).
Proof. vm_compute. reflexivity. Qed.

(** [reset] after completion brings the cursor back to 0 and arms
    nothing. *)
Example reset_does_not_rearm :
  let w1 := snd (send_message_job catalog5 net_up timer7 (world7 5)) in
  let w2 := snd (reset net_up 7 w1) in
  cursor w2 7 = Some (VInt 0) /\ timers w2 7 = 0%nat.
Proof. vm_compute. auto. Qed.

(** [settime 09:30] replaces the timer armed by [start]. *)
Example settime_replaces_timer :
  let w1 := snd (start tz_sample net_up 7 (mk_world ∅ (Some []) [])) in
  let w2 := snd (settime tz_sample int_sample net_up 7 ["09:30"] w1) in
  job_queue w1 = Some [daily_job 7 (mk_time 10 0 "Europe/Minsk")] /\
  job_queue w2 = Some [timer7].
Proof. vm_compute. auto. Qed.

(** A stored cursor below [-len(catalog)] makes the callback raise: the
    range assumed for the cursor starts at 0. *)
Example fire_cursor_below_range :
  send_message_job catalog5 net_up timer7 (world7 (-6))
  = (Raise IndexError, world7 (-6)).
Proof. vm_compute. reflexivity. Qed.

(** Lines are stripped, blank lines dropped, order kept. *)
Example load_messages_sample :
  load_messages (Existing (Ret [32; 49; 10; 9; 13; 10; 50; 32]%N))
  = Ret [[49]; [50]]%N
  /\ load_messages (Existing (Ret [32; 10; 9]%N)) = Raise ValueError
  /\ load_messages (Existing (Raise IsADirectoryError))
     = Raise IsADirectoryError
  /\ load_messages Missing = Raise FileNotFoundError.
Proof. vm_compute. auto. Qed.

(* ===================================================================== *)
(** * Further properties of the code                                     *)
(* ===================================================================== *)

(** ** Job names and the queue helpers *)

(** X1.  [job_name] gives two chats the same name only when they are
    the same chat: a timer name identifies its subscriber. *)
Theorem job_name_injective (c c' : Z) : job_name c = job_name c' <-> c = c'.
Proof. split; [apply job_name_inj|now intros ->]. Qed.

Lemma jobs_of_set_queue (w : World) (q : option (list Job)) (c : Z) :
  jobs_of (set_queue w q) c
  = match q with
    | Some jobs => get_jobs_by_name jobs (job_name c)
    | None => []
    end.
Proof. reflexivity. Qed.

Lemma timers_jobs_of (w : World) (c : Z) : timers w c = length (jobs_of w c).
Proof. unfold timers, jobs_of, live. now destruct (job_queue w). Qed.

Lemma job_name_ne (c c' : Z) : c <> c' -> job_name c <> job_name c'.
Proof. intros H E. now apply job_name_inj in E. Qed.

(** X2.  [cancel_existing_job] always returns; afterwards the chat has
    no live job, the jobs of every other chat are the ones it had, in
    the same order, the stored data and the delivered messages are
    untouched, a missing queue leaves the world as it is, and a second
    call changes nothing more. *)
Theorem cancel_existing_job_removes_named (c : Z) (w : World) :
  let w' := snd (cancel_existing_job c w) in
  fst (cancel_existing_job c w) = Ret tt /\
  chat_data w' = chat_data w /\
  outbox w' = outbox w /\
  jobs_of w' c = [] /\
  (forall c', c' <> c -> jobs_of w' c' = jobs_of w c') /\
  (forall jobs, job_queue w = Some jobs ->
     job_queue w' = Some (filter (fun j => name j <> job_name c) jobs)) /\
  (job_queue w = None -> w' = w) /\
  cancel_existing_job c w' = (Ret tt, w').
Proof.
  intros w'. subst w'. rewrite !cancel_existing_job_run. simpl.
  repeat split.
  - unfold jobs_of. simpl. destruct (job_queue w); simpl;
      [apply named_without_same|reflexivity].
  - intros c' Hc. unfold jobs_of. simpl. destruct (job_queue w); simpl;
      [|reflexivity].
    apply named_without_other. now apply job_name_ne.
  - intros jobs Q. now rewrite Q.
  - intros Q. destruct w as [cd q ob]. simpl in *. now subst q.
  - f_equal. unfold set_queue. simpl. f_equal.
    destruct (job_queue w) as [jobs|]; [|reflexivity]. simpl. f_equal.
    unfold without. induction jobs as [|j jobs IH]; [reflexivity|].
    rewrite filter_cons. destruct (decide (name j <> job_name c)) as [H|H].
    + rewrite filter_cons. destruct (decide (name j <> job_name c));
        [now rewrite IH|contradiction].
    + exact IH.
Qed.

Section JobQueueMore.

Variable tz_known : string -> bool.

(** X3.  [schedule_daily_job] touches nothing but the jobs that carry
    its own chat's name: stored data, delivered messages and the jobs of
    every other chat are as before, whether it returns or raises; with
    no queue it returns and changes nothing, whatever the data. *)
Theorem schedule_daily_job_frame (c : Z) (d : gmap string pyval) (w : World) :
  let w' := snd (schedule_daily_job tz_known c d w) in
  chat_data w' = chat_data w /\
  outbox w' = outbox w /\
  (forall c', c' <> c -> jobs_of w' c' = jobs_of w c') /\
  (job_queue w = None ->
     schedule_daily_job tz_known c d w = (Ret tt, w)).
Proof.
  intros w'. subst w'. rewrite schedule_daily_job_run.
  destruct (job_queue w) as [jobs|] eqn:Q.
  - simpl. destruct (get_user_time tz_known d) as [t|e]; simpl;
      (repeat split; [|discriminate]); intros c' Hc;
      unfold jobs_of; simpl; rewrite Q.
    + rewrite named_app, named_daily_job.
      destruct (decide (c = c')); [congruence|].
      rewrite app_nil_r. apply named_without_other. now apply job_name_ne.
    + apply named_without_other. now apply job_name_ne.
  - repeat split.
Qed.

(** X4.  With a queue and data from which a time can be built,
    [schedule_daily_job] returns and the chat's only live job is the
    daily job at that time, carrying the chat id as its data; the jobs
    of other names keep their order in front of it. *)
Theorem schedule_daily_job_arms
    (c : Z) (d : gmap string pyval) (w : World) (jobs : list Job)
    (t : pytime) :
  job_queue w = Some jobs ->
  get_user_time tz_known d = Ret t ->
  let r := schedule_daily_job tz_known c d w in
  fst r = Ret tt /\
  jobs_of (snd r) c = [daily_job c t] /\
  job_queue (snd r)
  = Some (filter (fun j => name j <> job_name c) jobs ++ [daily_job c t]) /\
  job_data_chat_id (daily_job c t) = VInt c.
Proof.
  intros Q T r. subst r. rewrite schedule_daily_job_run, Q, T. simpl.
  repeat split.
  unfold jobs_of. simpl.
  rewrite named_app, named_without_same, named_daily_job.
  now destruct (decide (c = c)).
Qed.

(** X5.  When no time can be built from the data, [schedule_daily_job]
    raises after the cancellation: the chat is left with no live job,
    the one it had before included. *)
Theorem schedule_daily_job_bad_time
    (c : Z) (d : gmap string pyval) (w : World) (jobs : list Job) (e : exn) :
  job_queue w = Some jobs ->
  get_user_time tz_known d = Raise e ->
  let r := schedule_daily_job tz_known c d w in
  fst r = Raise e /\
  jobs_of (snd r) c = [] /\
  job_queue (snd r) = Some (filter (fun j => name j <> job_name c) jobs).
Proof.
  intros Q T r. subst r. rewrite schedule_daily_job_run, Q, T. simpl.
  repeat split. unfold jobs_of. simpl. apply named_without_same.
Qed.

End JobQueueMore.

(** ** The delivery time *)

Lemma get_user_tz_insert_other tz_known (k : string) (v : pyval)
    (d : gmap string pyval) :
  k <> "tz" -> get_user_tz tz_known (<[k := v]> d) = get_user_tz tz_known d.
Proof.
  intros Hk. unfold get_user_tz, dict_get.
  now rewrite lookup_insert_ne by exact Hk.
Qed.

Lemma c_int_ok (v : pyval) (n : Z) :
  c_int v = Ret n <-> v = VInt n /\ - 2 ^ 31 <= n <= 2 ^ 31 - 1.
Proof.
  unfold c_int. destruct v as [k| |]; try (split; [discriminate|now intros [[=] _]]).
  destruct ((- 2 ^ 31 <=? k) && (k <=? 2 ^ 31 - 1)) eqn:E.
  - apply andb_true_iff in E as [E1 E2]. apply Z.leb_le in E1, E2.
    split; [intros [= <-]|intros [[= ->] _]]; auto.
  - split; [discriminate|]. intros [[= ->] [H1 H2]].
    apply Z.leb_le in H1, H2. rewrite H1, H2 in E. discriminate.
Qed.


Lemma time_of_ok (h m : pyval) (z : string) (t : pytime) :
  time_of h m z = Ret t <->
  exists hh mm, h = VInt hh /\ m = VInt mm /\
                (0 <= hh <= 23) /\ (0 <= mm <= 59) /\ t = mk_time hh mm z.
Proof.
  unfold time_of. split.
  - destruct (c_int h) as [hh|e] eqn:Eh; [|discriminate].
    destruct (c_int m) as [mm|e] eqn:Em; [|discriminate].
    apply c_int_ok in Eh as [-> _]. apply c_int_ok in Em as [-> _].
    destruct ((0 <=? hh) && (hh <=? 23)) eqn:Hh; [|discriminate].
    destruct ((0 <=? mm) && (mm <=? 59)) eqn:Hm; [|discriminate].
    intros [= <-]. exists hh, mm.
    apply andb_true_iff in Hh as [? ?]. apply andb_true_iff in Hm as [? ?].
    repeat split; try reflexivity; lia.
  - intros (hh & mm & -> & -> & Hh & Hm & ->).
    rewrite (proj2 (c_int_ok (VInt hh) hh)) by (split; [reflexivity|lia]).
    rewrite (proj2 (c_int_ok (VInt mm) mm)) by (split; [reflexivity|lia]).
    replace ((0 <=? hh) && (hh <=? 23)) with true
      by (symmetry; apply andb_true_iff; split; apply Z.leb_le; lia).
    replace ((0 <=? mm) && (mm <=? 59)) with true
      by (symmetry; apply andb_true_iff; split; apply Z.leb_le; lia).
    reflexivity.
Qed.



(** ** The [settime] command *)

Lemma split_colon_length (s : string) :
  length (split_colon s) = S (count_colons s).
Proof.
  induction s as [|c s IH]; [reflexivity|]. simpl.
  destruct (Ascii.eqb c ":"%char); simpl; [now rewrite IH|].
  destruct (split_colon s) as [|hd tl]; [discriminate IH|exact IH].
Qed.

Section Rearm.

Variable tz_known : string -> bool.

(** The common tail of the commands that change the configuration: read
    the chat's dictionary, schedule, reply. *)
Lemma rearm_run (net : transport) (c : Z) (m : outmsg) (w : World)
    (d : gmap string pyval) :
  chat_data w !! c = Some d ->
  (d0 <- context_chat_data c ;;
   schedule_daily_job tz_known c d0 ;;;
   send_message net c m) w
  = match schedule_daily_job tz_known c d w with
    | (Ret _, w1) => send_message net c m w1
    | (Raise e, w1) => (Raise e, w1)
    end.
Proof.
  intros H. unfold bind at 1. rewrite (context_chat_data_present c w d H).
  unfold bind. now destruct (schedule_daily_job tz_known c d w) as [[[]|e] w1].
Qed.

Lemma rearm_world (net : transport) (c : Z) (m : outmsg) (w : World)
    (d : gmap string pyval) :
  chat_data w !! c = Some d ->
  let w1 := snd (schedule_daily_job tz_known c d w) in
  let w' := snd ((d0 <- context_chat_data c ;;
                  schedule_daily_job tz_known c d0 ;;;
                  send_message net c m) w) in
  chat_data w' = chat_data w /\ job_queue w' = job_queue w1.
Proof.
  intros H w1 w'. subst w1 w'. rewrite (rearm_run net c m w d H).
  pose proof (schedule_daily_job_chat_data tz_known c d w) as [Hcd _].
  destruct (schedule_daily_job tz_known c d w) as [[[]|e] w1];
    simpl in *; [|now split].
  pose proof (send_message_frame net c m w1) as [H1 H2].
  split; congruence.
Qed.

End Rearm.

Section SetTime.

Variable tz_known : string -> bool.
Variable py_int : string -> option Z.

(** X7.  [settime] rejects, with the usage reply, a call without
    argument or whose first argument does not hold exactly one colon,
    and, with the format reply, an argument one of whose two parts is
    not an integer or whose hour or minute is out of range.  A rejected
    call does nothing but send that reply: no dictionary is created or
    changed and the timers stay. *)
Theorem settime_rejects (net : transport) (c : Z) (w : World)
    (args : list string) :
  (args = [] \/ (exists a rest, args = a :: rest /\ count_colons a <> 1%nat) ->
   settime tz_known py_int net c args w
   = send_message net c (Reply ReplySetTimeUsage) w)
  /\
  (forall a rest p1 p2,
      args = a :: rest -> split_colon a = [p1; p2] ->
      py_int p1 = None \/ py_int p2 = None \/
      (exists hh mm, py_int p1 = Some hh /\ py_int p2 = Some mm /\
                     ~ (0 <= hh <= 23 /\ 0 <= mm <= 59)) ->
      settime tz_known py_int net c args w
      = send_message net c (Reply ReplySetTimeBad) w)
  /\
  (forall r, chat_data (snd (send_message net c (Reply r) w)) = chat_data w /\
             job_queue (snd (send_message net c (Reply r) w)) = job_queue w).
Proof.
  split; [|split].
  - intros [->|(a & rest & -> & Hn)]; [reflexivity|].
    unfold settime. pose proof (split_colon_length a) as Hl.
    destruct (split_colon a) as [|p1 [|p2 [|p3 ps]]]; try reflexivity.
    simpl in Hl. lia.
  - intros a rest p1 p2 -> Hs H. unfold settime. rewrite Hs.
    destruct H as [H|[H|(hh & mm & H1 & H2 & Hr)]].
    + now rewrite H.
    + rewrite H. now destruct (py_int p1).
    + rewrite H1, H2.
      destruct ((0 <=? hh) && (hh <=? 23) && (0 <=? mm) && (mm <=? 59)) eqn:E;
        [|reflexivity].
      exfalso. apply Hr.
      repeat (apply andb_true_iff in E as [E ?]). lia.
  - intros r. apply send_message_frame.
Qed.

(** X8.  [settime] with an argument [HH:MM] whose parts are integers in
    range stores them as the hour and the minute and changes no other
    field (the cursor and the zone stay) and no other chat; with a queue
    and a resolvable zone the chat's only live job is then the daily job
    at the new time, the jobs of other chats are as before, and the
    call returns when the reply goes through. *)
Theorem settime_accepts (net : transport) (c : Z) (w : World)
    (a : string) (rest : list string) (p1 p2 : string) (hh mm : Z) :
  split_colon a = [p1; p2] ->
  py_int p1 = Some hh -> py_int p2 = Some mm ->
  0 <= hh <= 23 -> 0 <= mm <= 59 ->
  let d' := with_time hh mm (the_store w c) in
  let w' := snd (settime tz_known py_int net c (a :: rest) w) in
  chat_data w' = <[c := d']> (chat_data w) /\
  (forall k, k <> "hour" -> k <> "minute" -> d' !! k = the_store w c !! k) /\
  d' !! "hour" = Some (VInt hh) /\ d' !! "minute" = Some (VInt mm) /\
  (forall jobs z,
      job_queue w = Some jobs ->
      get_user_tz tz_known (the_store w c) = Ret z ->
      jobs_of w' c = [daily_job c (mk_time hh mm z)] /\
      (forall c', c' <> c -> jobs_of w' c' = jobs_of w c') /\
      (net c (Reply (ReplyTimeChanged hh mm)) = true ->
       fst (settime tz_known py_int net c (a :: rest) w) = Ret tt /\
       outbox w' = outbox w ++ [(c, Reply (ReplyTimeChanged hh mm))])).
Proof.
  intros Hs H1 H2 Hh Hm d' w'.
  set (w2 := mk_world (<[c := d']> (chat_data w)) (job_queue w) (outbox w)).
  assert (Hc2 : chat_data w2 !! c = Some d') by apply lookup_insert_eq.
  assert (Hrun : settime tz_known py_int net c (a :: rest) w
                 = (d0 <- context_chat_data c ;;
                    schedule_daily_job tz_known c d0 ;;;
                    send_message net c (Reply (ReplyTimeChanged hh mm))) w2).
  { unfold settime. rewrite Hs, H1, H2.
    replace ((0 <=? hh) && (hh <=? 23) && (0 <=? mm) && (mm <=? 59)) with true
      by (symmetry; rewrite !andb_true_iff, !Z.leb_le; lia).
    unfold bind at 1 2, mutate, the_store. simpl.
    now rewrite lookup_insert_eq, insert_insert_eq. }
  destruct (rearm_world tz_known net c (Reply (ReplyTimeChanged hh mm))
              w2 d' Hc2) as [Hcd Hq].
  fold w2 in Hcd, Hq. rewrite <- Hrun in Hcd, Hq. fold w' in Hcd, Hq.
  split; [exact Hcd|]. split; [|split; [|split]].
  - intros k Hk1 Hk2. unfold d', with_time.
    now rewrite !lookup_insert_ne by congruence.
  - unfold d', with_time. now rewrite lookup_insert_ne, lookup_insert_eq.
  - unfold d', with_time. now rewrite lookup_insert_eq.
  - intros jobs z Q Hz.
    assert (Ht : get_user_time tz_known d' = Ret (mk_time hh mm z)).
    { unfold get_user_time, d', with_time.
      rewrite !get_user_tz_insert_other, Hz by discriminate.
      unfold dict_get. rewrite lookup_insert_ne, lookup_insert_eq by discriminate.
      rewrite lookup_insert_eq. apply time_of_ok. exists hh, mm. auto. }
    assert (Hsched : schedule_daily_job tz_known c d' w2
                     = (Ret tt, set_queue w2 (Some (without (job_name c) jobs
                                  ++ [daily_job c (mk_time hh mm z)])))).
    { rewrite schedule_daily_job_run. simpl. now rewrite Q, Ht. }
    rewrite Hsched in Hq. simpl in Hq.
    assert (Hj : forall c', jobs_of w' c'
                 = get_jobs_by_name (without (job_name c) jobs
                      ++ [daily_job c (mk_time hh mm z)]) (job_name c')).
    { intros c'. unfold jobs_of. now rewrite Hq. }
    split; [|split].
    + rewrite Hj, named_app, named_without_same, named_daily_job.
      now destruct (decide (c = c)).
    + intros c' Hc. rewrite Hj, named_app, named_daily_job.
      destruct (decide (c = c')); [congruence|]. rewrite app_nil_r.
      unfold jobs_of. rewrite Q. apply named_without_other.
      now apply job_name_ne.
    + intros Hnet. subst w'. rewrite Hrun, (rearm_run tz_known _ _ _ _ _ Hc2).
      rewrite Hsched. unfold send_message. rewrite Hnet. simpl. now split.
Qed.

End SetTime.

(** ** The [settz] command *)

Section SetTz.

Variable tz_known : string -> bool.

(** X9.  [settz] rejects a call without argument (usage reply) and a
    first argument the timezone database does not know (error reply);
    a rejected call does nothing but send that reply. *)
Theorem settz_rejects (net : transport) (c : Z) (w : World)
    (args : list string) :
  (args = [] ->
   settz tz_known net c args w
   = send_message net c (Reply ReplySetTzUsage) w)
  /\
  (forall a rest, args = a :: rest -> tz_known a = false ->
     settz tz_known net c args w = send_message net c (Reply ReplyBadTz) w)
  /\
  (forall r, chat_data (snd (send_message net c (Reply r) w)) = chat_data w /\
             job_queue (snd (send_message net c (Reply r) w)) = job_queue w).
Proof.
  split; [|split].
  - now intros ->.
  - intros a rest -> Ha. unfold settz, ZoneInfo. now rewrite Ha.
  - intros r. apply send_message_frame.
Qed.

(** X10.  [settz] with a known zone stores its name as the timezone and
    changes no other field and no other chat; [get_user_tz] then
    resolves to that zone, and with a queue and a stored hour and
    minute in range the chat's only live job is the daily job at the
    stored time in the new zone. *)
Theorem settz_accepts (net : transport) (c : Z) (w : World)
    (a : string) (rest : list string) :
  tz_known a = true ->
  let d' := <["tz" := VStr a]> (the_store w c) in
  let w' := snd (settz tz_known net c (a :: rest) w) in
  chat_data w' = <[c := d']> (chat_data w) /\
  get_user_tz tz_known d' = Ret a /\
  (forall jobs hh mm,
      job_queue w = Some jobs ->
      dict_get (the_store w c) "hour" (VInt DEFAULT_HOUR) = VInt hh ->
      dict_get (the_store w c) "minute" (VInt DEFAULT_MINUTE) = VInt mm ->
      0 <= hh <= 23 -> 0 <= mm <= 59 ->
      jobs_of w' c = [daily_job c (mk_time hh mm a)] /\
      (forall c', c' <> c -> jobs_of w' c' = jobs_of w c')).
Proof.
  intros Ha d' w'.
  set (w2 := mk_world (<[c := d']> (chat_data w)) (job_queue w) (outbox w)).
  assert (Hc2 : chat_data w2 !! c = Some d') by apply lookup_insert_eq.
  assert (Hrun : settz tz_known net c (a :: rest) w
                 = (d0 <- context_chat_data c ;;
                    schedule_daily_job tz_known c d0 ;;;
                    send_message net c (Reply (ReplyTzChanged a))) w2).
  { unfold settz, ZoneInfo. rewrite Ha. reflexivity. }
  destruct (rearm_world tz_known net c (Reply (ReplyTzChanged a))
              w2 d' Hc2) as [Hcd Hq].
  fold w2 in Hcd, Hq. rewrite <- Hrun in Hcd, Hq. fold w' in Hcd, Hq.
  assert (Hz : get_user_tz tz_known d' = Ret a).
  { unfold get_user_tz, dict_get, d', ZoneInfo.
    now rewrite lookup_insert_eq, Ha. }
  split; [exact Hcd|]. split; [exact Hz|].
  intros jobs hh mm Q Hh Hm Hhr Hmr.
  assert (Ht : get_user_time tz_known d' = Ret (mk_time hh mm a)).
  { unfold get_user_time. rewrite Hz. unfold dict_get, d' in *.
    rewrite !lookup_insert_ne by discriminate. rewrite Hh, Hm.
    apply time_of_ok. exists hh, mm. auto. }
  assert (Hsched : schedule_daily_job tz_known c d' w2
                   = (Ret tt, set_queue w2 (Some (without (job_name c) jobs
                                ++ [daily_job c (mk_time hh mm a)])))).
  { rewrite schedule_daily_job_run. simpl. now rewrite Q, Ht. }
  rewrite Hsched in Hq. simpl in Hq.
  assert (Hj : forall c', jobs_of w' c'
               = get_jobs_by_name (without (job_name c) jobs
                    ++ [daily_job c (mk_time hh mm a)]) (job_name c')).
  { intros c'. unfold jobs_of. now rewrite Hq. }
  split.
  - rewrite Hj, named_app, named_without_same, named_daily_job.
    now destruct (decide (c = c)).
  - intros c' Hc. rewrite Hj, named_app, named_daily_job.
    destruct (decide (c = c')); [congruence|]. rewrite app_nil_r.
    unfold jobs_of. rewrite Q. apply named_without_other.
    now apply job_name_ne.
Qed.

End SetTz.

(** ** The [status], [pause], [resume] and [reset] commands *)

Lemma cursor_insert_store (w : World) (c c' : Z) (q : option (list Job))
    (ob : list (Z * outmsg)) :
  cursor (mk_world (<[c := the_store w c]> (chat_data w)) q ob) c'
  = cursor w c'.
Proof.
  unfold cursor, the_store. simpl.
  destruct (decide (c = c')) as [->|Hne].
  - rewrite lookup_insert_eq. destruct (chat_data w !! c'); [reflexivity|].
    apply lookup_empty.
  - now rewrite lookup_insert_ne.
Qed.

Section Status.

Variable MESSAGES : list pystr.

Lemma status_run (net : transport) (c : Z) (w : World) :
  status MESSAGES net c w
  = let d := the_store w c in
    let w1 := mk_world (<[c := d]> (chat_data w)) (job_queue w) (outbox w) in
    match dict_get d "index" (VInt 0) with
    | VInt i =>
        match format_02d (dict_get d "hour" (VInt DEFAULT_HOUR)) with
        | Ret h =>
            match format_02d (dict_get d "minute" (VInt DEFAULT_MINUTE)) with
            | Ret m =>
                send_message net c
                  (Reply (ReplyStatus h m (dict_get d "tz" (VStr DEFAULT_TZ))
                            (i + 1)
                            (Z.max 0 (Z.of_nat (length MESSAGES) - i))))
                  w1
            | Raise e => (Raise e, w1)
            end
        | Raise e => (Raise e, w1)
        end
    | _ => (Raise TypeError, w1)
    end.
Proof.
  unfold status, bind at 1, context_chat_data. cbv zeta.
  destruct (dict_get (the_store w c) "index" (VInt 0)); reflexivity.
Qed.

(** X11.  [status] is read-only: the timers and every stored dictionary
    are as before and no cursor moves, the one change being the empty
    dictionary that reading [chat_data] creates for a chat that has
    none; it sends at most one message, a status reply to its own
    chat.  For integer fields the reply reports the stored time and
    zone, the cursor plus one, and [max(0, len(catalog) - cursor)]
    messages left. *)
Theorem status_read_only (net : transport) (c : Z) (w : World) :
  let w' := snd (status MESSAGES net c w) in
  job_queue w' = job_queue w /\
  chat_data w' = <[c := the_store w c]> (chat_data w) /\
  (forall c' d, chat_data w !! c' = Some d -> chat_data w' !! c' = Some d) /\
  (forall c', cursor w' c' = cursor w c') /\
  (outbox w' = outbox w \/
   exists hh mm tz next left,
     outbox w' = outbox w ++ [(c, Reply (ReplyStatus hh mm tz next left))]) /\
  (forall hh mm i,
      dict_get (the_store w c) "hour" (VInt DEFAULT_HOUR) = VInt hh ->
      dict_get (the_store w c) "minute" (VInt DEFAULT_MINUTE) = VInt mm ->
      dict_get (the_store w c) "index" (VInt 0) = VInt i ->
      let r := ReplyStatus hh mm
                 (dict_get (the_store w c) "tz" (VStr DEFAULT_TZ))
                 (i + 1) (Z.max 0 (Z.of_nat (length MESSAGES) - i)) in
      net c (Reply r) = true ->
      status MESSAGES net c w
      = (Ret tt, mk_world (<[c := the_store w c]> (chat_data w))
                          (job_queue w) (outbox w ++ [(c, Reply r)]))).
Proof.
  intros w'.
  set (w1 := mk_world (<[c := the_store w c]> (chat_data w))
                      (job_queue w) (outbox w)).
  assert (Hshape : (w' = w1 \/
                    exists hh mm tz next left,
                      w' = mk_world (chat_data w1) (job_queue w1)
                             (outbox w ++
                              [(c, Reply (ReplyStatus hh mm tz next left))]))).
  { subst w'. rewrite status_run. cbv zeta. fold w1.
    destruct (dict_get (the_store w c) "index" (VInt 0)) as [i| |];
      try (now left).
    destruct (format_02d _) as [h|e]; [|now left].
    destruct (format_02d _) as [m|e]; [|now left].
    unfold send_message. destruct (net c _); [|now left].
    right. simpl. eauto 10. }
  assert (Hcd : chat_data w' = chat_data w1 /\ job_queue w' = job_queue w1).
  { destruct Hshape as [->|(? & ? & ? & ? & ? & ->)]; now split. }
  destruct Hcd as [Hcd Hq]. simpl in Hcd, Hq.
  split; [exact Hq|]. split; [exact Hcd|]. split; [|split; [|split]].
  - intros c' d Hd. rewrite Hcd. unfold the_store.
    destruct (decide (c = c')) as [->|Hne].
    + now rewrite lookup_insert_eq, Hd.
    + now rewrite lookup_insert_ne.
  - intros c'. rewrite <- (cursor_insert_store w c c' (job_queue w) (outbox w)).
    unfold cursor. now rewrite Hcd.
  - destruct Hshape as [->|(hh & mm & tz & nx & lf & ->)]; [now left|].
    right. simpl. eauto 10.
  - intros hh mm i Hh Hm Hi r Hnet.
    rewrite status_run. cbv zeta. fold w1.
    rewrite Hi, Hh, Hm. unfold format_02d, send_message.
    fold r. now rewrite Hnet.
Qed.

End Status.

Lemma pause_world (net : transport) (c : Z) (w : World) :
  snd (pause net c w)
  = mk_world (chat_data w) (without (job_name c) <$> job_queue w)
             (outbox w ++ (if net c (Reply ReplyPaused)
                           then [(c, Reply ReplyPaused)] else [])).
Proof.
  unfold pause, bind. rewrite cancel_existing_job_run. unfold send_message.
  destruct (net c (Reply ReplyPaused)); simpl; now rewrite ?app_nil_r.
Qed.

(** X12.  [pause] removes the chat's live jobs and nothing else: the
    stored data (the cursor with it) and the jobs of the other chats are
    as before, and it sends at most the pause reply. *)
Theorem pause_removes_timer (net : transport) (c : Z) (w : World) :
  let w' := snd (pause net c w) in
  chat_data w' = chat_data w /\
  jobs_of w' c = [] /\
  (forall c', c' <> c -> jobs_of w' c' = jobs_of w c') /\
  outbox w' = outbox w ++ (if net c (Reply ReplyPaused)
                           then [(c, Reply ReplyPaused)] else []).
Proof.
  intros w'. subst w'. rewrite pause_world.
  split; [reflexivity|]. split; [|split; [|reflexivity]].
  - unfold jobs_of. simpl. destruct (job_queue w); simpl;
      [apply named_without_same|reflexivity].
  - intros c' Hne. unfold jobs_of. simpl. destruct (job_queue w); simpl;
      [|reflexivity].
    apply named_without_other. now apply job_name_ne.
Qed.

Section Resume.

Variable tz_known : string -> bool.

Lemma resume_run (net : transport) (c : Z) (w : World) :
  resume tz_known net c w
  = match schedule_daily_job tz_known c (the_store w c)
            (mk_world (<[c := the_store w c]> (chat_data w))
                      (job_queue w) (outbox w)) with
    | (Ret _, w1) => send_message net c (Reply ReplyResumed) w1
    | (Raise e, w1) => (Raise e, w1)
    end.
Proof.
  unfold resume, bind, context_chat_data.
  now destruct (schedule_daily_job tz_known c _ _) as [[[]|e] w1].
Qed.

Lemma resume_world (net : transport) (c : Z) (w : World) :
  let d := the_store w c in
  let w0 := mk_world (<[c := d]> (chat_data w)) (job_queue w) (outbox w) in
  let w' := snd (resume tz_known net c w) in
  chat_data w' = <[c := d]> (chat_data w) /\
  job_queue w' = job_queue (snd (schedule_daily_job tz_known c d w0)).
Proof.
  intros d w0 w'. subst w'. rewrite resume_run. fold d. fold w0.
  pose proof (schedule_daily_job_chat_data tz_known c d w0) as [Hcd _].
  destruct (schedule_daily_job tz_known c d w0) as [[[]|e] w1];
    simpl in *; [|now split].
  pose proof (send_message_frame net c (Reply ReplyResumed) w1) as [H1 H2].
  split; congruence.
Qed.

(** X13.  [pause] followed by [resume], on a chat with stored data from
    which a time can be built and with a queue, restores the chat's
    timer: its only live job is the daily job at the stored time, the
    stored data (the cursor with it) is what it was before the pause,
    and the jobs of the other chats are as before. *)
Theorem pause_then_resume (net net' : transport) (c : Z) (w : World)
    (d : gmap string pyval) (jobs : list Job) (t : pytime) :
  chat_data w !! c = Some d ->
  job_queue w = Some jobs ->
  get_user_time tz_known d = Ret t ->
  let w' := snd (resume tz_known net' c (snd (pause net c w))) in
  chat_data w' = chat_data w /\
  jobs_of w' c = [daily_job c t] /\
  (forall c', c' <> c -> jobs_of w' c' = jobs_of w c').
Proof.
  intros Hc Q Ht w'.
  set (w1 := snd (pause net c w)) in *.
  assert (Hcd1 : chat_data w1 = chat_data w)
    by (subst w1; now rewrite pause_world).
  assert (Hq1 : job_queue w1 = Some (without (job_name c) jobs))
    by (subst w1; rewrite pause_world; simpl; now rewrite Q).
  destruct (resume_world net' c w1) as [Hcd Hq]. fold w' in Hcd, Hq.
  assert (Hd : the_store w1 c = d) by (unfold the_store; now rewrite Hcd1, Hc).
  rewrite Hd in Hcd, Hq. rewrite Hcd1 in Hcd, Hq.
  rewrite (insert_id _ _ _ Hc) in Hcd, Hq.
  rewrite schedule_daily_job_run in Hq. simpl in Hq. rewrite Hq1, Ht in Hq.
  simpl in Hq.
  assert (Hj : forall c', jobs_of w' c'
               = get_jobs_by_name (without (job_name c)
                                     (without (job_name c) jobs)
                    ++ [daily_job c t]) (job_name c')).
  { intros c'. unfold jobs_of. now rewrite Hq. }
  split; [exact Hcd|]. split.
  - rewrite Hj, named_app, named_without_same, named_daily_job.
    now destruct (decide (c = c)).
  - intros c' Hne. rewrite Hj, named_app, named_daily_job.
    destruct (decide (c = c')); [congruence|]. rewrite app_nil_r.
    unfold jobs_of. rewrite Q.
    rewrite !named_without_other by now apply job_name_ne. reflexivity.
Qed.

End Resume.

Section ResumeUnknown.

Variable tz_known : string -> bool.
Variable MESSAGES : list pystr.

(** X14.  [resume] for a chat with no stored data creates an empty
    dictionary for it and, with a queue and the default zone in the
    database, arms a daily job at the default time 10:00 in the default
    zone.  A fire of a chat's job while its dictionary is empty returns
    without sending or changing anything: such a timer delivers nothing
    until a command stores a field. *)
Theorem resume_before_start (net : transport) (c : Z) (w : World)
    (jobs : list Job) :
  chat_data w !! c = None ->
  job_queue w = Some jobs ->
  tz_known DEFAULT_TZ = true ->
  let w' := snd (resume tz_known net c w) in
  chat_data w' !! c = Some ∅ /\
  jobs_of w' c
  = [daily_job c (mk_time DEFAULT_HOUR DEFAULT_MINUTE DEFAULT_TZ)] /\
  (forall net' t w'',
      chat_data w'' !! c = Some ∅ ->
      send_message_job MESSAGES net' (daily_job c t) w'' = (Ret tt, w'')).
Proof.
  intros Hc Q Hdef w'.
  destruct (resume_world tz_known net c w) as [Hcd Hq]. fold w' in Hcd, Hq.
  assert (Hd : the_store w c = ∅) by (unfold the_store; now rewrite Hc).
  rewrite Hd in Hcd, Hq. split; [|split].
  - rewrite Hcd. apply lookup_insert_eq.
  - rewrite schedule_daily_job_run in Hq. simpl in Hq. rewrite Q in Hq.
    assert (Ht : get_user_time tz_known ∅
                 = Ret (mk_time DEFAULT_HOUR DEFAULT_MINUTE DEFAULT_TZ)).
    { unfold get_user_time, get_user_tz, dict_get, ZoneInfo.
      rewrite !lookup_empty, Hdef. reflexivity. }
    rewrite Ht in Hq. simpl in Hq. unfold jobs_of. rewrite Hq.
    rewrite named_app, named_without_same, named_daily_job.
    now destruct (decide (c = c)).
  - intros net' t w'' Hc''. rewrite send_message_job_run.
    change (job_data_chat_id (daily_job c t))
      with (dict_get ({[ "chat_id" := VInt c ]} : gmap string pyval)
                     "chat_id" VNone).
    unfold dict_get. rewrite lookup_singleton_eq, Hc''.
    reflexivity.
Qed.

End ResumeUnknown.

Lemma reset_world (net : transport) (c : Z) (w : World) :
  snd (reset net c w)
  = mk_world (<[c := <["index" := VInt 0]> (the_store w c)]> (chat_data w))
             (job_queue w)
             (outbox w ++ (if net c (Reply ReplyReset)
                           then [(c, Reply ReplyReset)] else [])).
Proof.
  unfold reset, bind, mutate, send_message. simpl.
  destruct (net c (Reply ReplyReset)); simpl; now rewrite ?app_nil_r.
Qed.

Section Reset.

Variable MESSAGES : list pystr.

(** X15.  [reset] stores cursor 0 for its chat and changes nothing
    else: the other fields, the other chats and the timers are as
    before (it arms nothing).  With a catalog that has a first message,
    the chat's next fire over a working transport delivers that first
    message and stores cursor 1. *)
Theorem reset_restarts_sequence (net net' : transport) (c : Z) (w : World)
    (job : Job) (m0 : pystr) :
  MESSAGES !! 0%nat = Some m0 ->
  job_data_chat_id job = VInt c ->
  net' c (Text m0) = true ->
  let w1 := snd (reset net c w) in
  let w2 := snd (send_message_job MESSAGES net' job w1) in
  cursor w1 c = Some (VInt 0) /\
  job_queue w1 = job_queue w /\
  (forall k, k <> "index" -> the_store w1 c !! k = the_store w c !! k) /\
  (forall c', c' <> c -> chat_data w1 !! c' = chat_data w !! c') /\
  cursor w2 c = Some (VInt 1) /\
  outbox w2 = outbox w1 ++ [(c, Text m0)] /\
  job_queue w2 = job_queue w.
Proof.
  intros Hm Hjob Hnet w1 w2.
  assert (H1 : w1 = mk_world
                 (<[c := <["index" := VInt 0]> (the_store w c)]> (chat_data w))
                 (job_queue w)
                 (outbox w ++ (if net c (Reply ReplyReset)
                               then [(c, Reply ReplyReset)] else [])))
    by apply reset_world.
  assert (Hc1 : chat_data w1 !! c = Some (<["index" := VInt 0]> (the_store w c)))
    by (rewrite H1; apply lookup_insert_eq).
  assert (Hlen : (0 < length MESSAGES)%nat)
    by (apply lookup_lt_is_Some; eauto).
  assert (H2 : w2 = mk_world
                 (<[c := <["index" := VInt (0 + 1)]>
                            (<["index" := VInt 0]> (the_store w c))]>
                    (chat_data w1))
                 (job_queue w1) (outbox w1 ++ [(c, Text m0)])).
  { subst w2. rewrite send_message_job_run, Hjob, Hc1.
    rewrite (dict_truthy_lookup _ "index" (VInt 0))
      by apply lookup_insert_eq.
    unfold dict_get. rewrite lookup_insert_eq.
    replace (Z.of_nat (length MESSAGES) <=? 0) with false
      by (symmetry; apply Z.leb_gt; lia).
    destruct (py_getitem_in_range MESSAGES 0) as (m & Hm' & Hget); [lia|].
    change (Z.to_nat 0) with 0%nat in Hm'. rewrite Hm in Hm'.
    injection Hm' as <-. now rewrite Hget, Hnet. }
  split; [|split; [|split; [|split; [|split; [|split]]]]].
  - unfold cursor. rewrite Hc1. apply lookup_insert_eq.
  - now rewrite H1.
  - intros k Hk. unfold the_store at 1. rewrite Hc1.
    now rewrite lookup_insert_ne by congruence.
  - intros c' Hc'. rewrite H1. simpl. now rewrite lookup_insert_ne.
  - unfold cursor. rewrite H2. simpl. rewrite lookup_insert_eq.
    apply lookup_insert_eq.
  - now rewrite H2.
  - rewrite H2. simpl. now rewrite H1.
Qed.

End Reset.

(** ** The delivery callback, further *)

Section DeliveryMore.

Variable MESSAGES : list pystr.

(** The three shapes the world can have after one invocation. *)
Lemma send_message_job_shape (net : transport) (job : Job) (w : World) :
  let w' := snd (send_message_job MESSAGES net job w) in
  w' = w \/
  (exists c ob,
      job_data_chat_id job = VInt c /\
      (ob = outbox w \/ ob = outbox w ++ [(c, Text FINISHED_NOTICE)]) /\
      w' = mk_world (chat_data w) (without (job_name c) <$> job_queue w) ob) \/
  (exists c d i m,
      job_data_chat_id job = VInt c /\
      chat_data w !! c = Some d /\
      dict_get d "index" (VInt 0) = VInt i /\
      i < Z.of_nat (length MESSAGES) /\
      w' = mk_world (<[c := <["index" := VInt (i + 1)]> d]> (chat_data w))
                    (job_queue w) (outbox w ++ [(c, Text m)])).
Proof.
  intros w'. subst w'. rewrite send_message_job_run.
  destruct (job_data_chat_id job) as [c| |]; try (now left).
  destruct (chat_data w !! c) as [d|] eqn:Hc; [|now left].
  destruct (dict_truthy d); [|now left].
  destruct (dict_get d "index" (VInt 0)) as [i| |] eqn:Hidx; try (now left).
  destruct (Z.of_nat (length MESSAGES) <=? i) eqn:Hge.
  - right. left. simpl.
    destruct (net c (Text FINISHED_NOTICE)); simpl; eauto 10.
  - destruct (py_getitem MESSAGES i) as [m|e]; [|now left].
    destruct (net c (Text m)); [|now left].
    right. right. exists c, d, i, m. apply Z.leb_gt in Hge. simpl. auto.
Qed.

(** X16.  One invocation of [send_message_job], whatever it meets,
    creates and deletes no dictionary, changes no field other than the
    cursor, touches neither the data nor the jobs of a chat other than
    the job's own, moves an integer cursor forward by one or not at all,
    and delivers at most one message, addressed to the job's chat. *)
Theorem send_message_job_frame (net : transport) (job : Job) (w : World) :
  let w' := snd (send_message_job MESSAGES net job w) in
  (forall c', is_Some (chat_data w' !! c') <-> is_Some (chat_data w !! c')) /\
  (forall c' d d' k,
      chat_data w !! c' = Some d -> chat_data w' !! c' = Some d' ->
      k <> "index" -> d' !! k = d !! k) /\
  (forall c', job_data_chat_id job <> VInt c' ->
      chat_data w' !! c' = chat_data w !! c' /\ jobs_of w' c' = jobs_of w c') /\
  (forall c' i, cursor w c' = Some (VInt i) ->
      exists i', cursor w' c' = Some (VInt i') /\ i <= i' <= i + 1) /\
  (outbox w' = outbox w \/
   exists c' t, job_data_chat_id job = VInt c' /\
                outbox w' = outbox w ++ [(c', Text t)]).
Proof.
  intros w'.
  destruct (send_message_job_shape net job w)
    as [H|[(c & ob & Hj & Hob & H)|(c & d & i & m & Hj & Hc & Hi & Hlt & H)]];
    fold w' in H; rewrite H; clear H w'.
  - split; [tauto|]. split; [|split; [|split]].
    + intros c' d d' k Hd Hd' _. congruence.
    + intros c' _. now split.
    + intros c' i Hi. exists i. split; [exact Hi|lia].
    + now left.
  - simpl. split; [tauto|]. split; [|split; [|split]].
    + intros c' d d' k Hd Hd' _. congruence.
    + intros c' Hne. split; [reflexivity|].
      unfold jobs_of. simpl. destruct (job_queue w); simpl; [|reflexivity].
      apply named_without_other. apply job_name_ne. congruence.
    + intros c' i Hi. exists i. split; [exact Hi|lia].
    + destruct Hob as [->| ->]; [now left|right; eauto].
  - simpl. split; [|split; [|split; [|split]]].
    + intros c'. destruct (decide (c = c')) as [<-|Hne].
      * rewrite lookup_insert_eq, Hc. split; eauto.
      * now rewrite lookup_insert_ne.
    + intros c' d0 d' k Hd Hd' Hk.
      destruct (decide (c = c')) as [<-|Hne].
      * rewrite lookup_insert_eq in Hd'. injection Hd' as <-.
        rewrite lookup_insert_ne by congruence. congruence.
      * rewrite lookup_insert_ne in Hd' by exact Hne. congruence.
    + intros c' Hne. split; [|reflexivity].
      apply lookup_insert_ne. congruence.
    + intros c' i' Hi'. unfold cursor in *. simpl.
      destruct (decide (c = c')) as [<-|Hne].
      * rewrite Hc in Hi'. unfold dict_get in Hi. rewrite Hi' in Hi.
        injection Hi as ->. rewrite lookup_insert_eq, lookup_insert_eq.
        exists (i + 1). split; [reflexivity|lia].
      * rewrite lookup_insert_ne by exact Hne. exists i'. split; [exact Hi'|lia].
    + right. eauto.
Qed.

Lemma run_fires_add (net : transport) (job : Job) (a b : nat) (w : World) :
  run_fires MESSAGES net job (a + b) w
  = run_fires MESSAGES net job b (run_fires MESSAGES net job a w).
Proof.
  revert w. induction a as [|a IH]; intros w; [reflexivity|].
  simpl. apply IH.
Qed.

(** [k] successful fires from cursor [i], within the catalog. *)
Lemma run_fires_prefix (net : transport) (job : Job) (c : Z) (k : nat) :
  job_data_chat_id job = VInt c ->
  (forall m, net c (Text m) = true) ->
  forall (w : World) (d : gmap string pyval) (i : Z),
    chat_data w !! c = Some d ->
    d !! "index" = Some (VInt i) ->
    0 <= i -> i + Z.of_nat k <= Z.of_nat (length MESSAGES) ->
    run_fires MESSAGES net job k w
    = mk_world (<[c := <["index" := VInt (i + Z.of_nat k)]> d]> (chat_data w))
               (job_queue w)
               (outbox w ++ map (fun m => (c, Text m))
                                (take k (drop (Z.to_nat i) MESSAGES))).
Proof.
  intros Hjob Hnet. induction k as [|k IH]; intros w d i Hc Hidx Hi Hk.
  - simpl. rewrite Z.add_0_r, app_nil_r.
    rewrite (insert_id d "index" (VInt i) Hidx), (insert_id _ c d Hc).
    now destruct w.
  - destruct (py_getitem_in_range MESSAGES i) as (m & Hm & Hget); [lia|].
    assert (Hfire : snd (send_message_job MESSAGES net job w)
                    = mk_world (<[c := <["index" := VInt (i + 1)]> d]>
                                  (chat_data w))
                               (job_queue w) (outbox w ++ [(c, Text m)])).
    { rewrite send_message_job_run, Hjob, Hc.
      rewrite (dict_truthy_lookup _ _ _ Hidx), (dict_get_lookup _ _ _ _ Hidx).
      replace (Z.of_nat (length MESSAGES) <=? i) with false
        by (symmetry; apply Z.leb_gt; lia).
      now rewrite Hget, Hnet. }
    simpl run_fires. rewrite Hfire.
    rewrite (IH _ (<["index" := VInt (i + 1)]> d) (i + 1));
      [|apply lookup_insert_eq|apply lookup_insert_eq|lia|lia].
    simpl. rewrite !insert_insert_eq.
    replace (i + 1 + Z.of_nat k) with (i + Z.of_nat (S k)) by lia.
    rewrite <- app_assoc. simpl.
    rewrite (drop_S MESSAGES m (Z.to_nat i) Hm). simpl.
    replace (Z.to_nat (i + 1)) with (S (Z.to_nat i)) by lia.
    reflexivity.
Qed.

(** X17.  [k] fires in a row over a working transport, starting at a
    stored cursor [i >= 0] with [i + k] within the catalog, deliver the
    [k] messages [MESSAGES[i], ..., MESSAGES[i+k-1]] to the chat in
    catalog order, each once, and leave cursor [i + k]; the timers are
    untouched. *)
Theorem fires_deliver_in_order (net : transport) (job : Job) (c : Z)
    (k : nat) (w : World) (d : gmap string pyval) (i : Z) :
  job_data_chat_id job = VInt c ->
  (forall m, net c (Text m) = true) ->
  chat_data w !! c = Some d ->
  d !! "index" = Some (VInt i) ->
  0 <= i -> i + Z.of_nat k <= Z.of_nat (length MESSAGES) ->
  let w' := run_fires MESSAGES net job k w in
  cursor w' c = Some (VInt (i + Z.of_nat k)) /\
  outbox w' = outbox w ++ map (fun m => (c, Text m))
                              (take k (drop (Z.to_nat i) MESSAGES)) /\
  job_queue w' = job_queue w /\
  (forall c', c' <> c -> chat_data w' !! c' = chat_data w !! c').
Proof.
  intros Hjob Hnet Hc Hidx Hi Hk w'. subst w'.
  rewrite (run_fires_prefix net job c k Hjob Hnet w d i Hc Hidx Hi Hk).
  unfold cursor. simpl. rewrite lookup_insert_eq, lookup_insert_eq.
  repeat split. intros c' Hne. now rewrite lookup_insert_ne.
Qed.

(** X18.  A whole run: from cursor 0, [len(catalog) + 1] fires over a
    working transport deliver the catalog in order, then the completion
    notice, leave the cursor at the catalog length and the chat without
    a live job; every further fire of the job leaves the stored data
    as it is. *)
Theorem full_run_then_notice (net : transport) (job : Job) (c : Z)
    (w : World) (d : gmap string pyval) :
  job_data_chat_id job = VInt c ->
  (forall m, net c (Text m) = true) ->
  chat_data w !! c = Some d ->
  d !! "index" = Some (VInt 0) ->
  let w' := run_fires MESSAGES net job (length MESSAGES + 1) w in
  outbox w' = outbox w ++ map (fun m => (c, Text m)) MESSAGES
                       ++ [(c, Text FINISHED_NOTICE)] /\
  cursor w' c = Some (VInt (Z.of_nat (length MESSAGES))) /\
  jobs_of w' c = [] /\
  (forall k, chat_data (run_fires MESSAGES net job k w') = chat_data w').
Proof.
  intros Hjob Hnet Hc Hidx w'.
  set (n := Z.of_nat (length MESSAGES)).
  set (dn := <["index" := VInt n]> d).
  set (wn := mk_world (<[c := dn]> (chat_data w)) (job_queue w)
               (outbox w ++ map (fun m => (c, Text m)) MESSAGES)).
  assert (Hn : run_fires MESSAGES net job (length MESSAGES) w = wn).
  { rewrite (run_fires_prefix net job c _ Hjob Hnet w d 0 Hc Hidx);
      [|lia|lia].
    change (Z.to_nat 0) with 0%nat. rewrite drop_0, firstn_all.
    reflexivity. }
  assert (Hcn : chat_data wn !! c = Some dn) by apply lookup_insert_eq.
  assert (Hin : dn !! "index" = Some (VInt n)) by apply lookup_insert_eq.
  assert (Hlast : forall v : World,
             chat_data v = chat_data wn ->
             snd (send_message_job MESSAGES net job v)
             = mk_world (chat_data v) (without (job_name c) <$> job_queue v)
                        (outbox v ++ [(c, Text FINISHED_NOTICE)])).
  { intros v Hv. rewrite send_message_job_run, Hjob, Hv, Hcn.
    rewrite (dict_truthy_lookup _ _ _ Hin), (dict_get_lookup _ _ _ _ Hin).
    replace (Z.of_nat (length MESSAGES) <=? n) with true
      by (symmetry; apply Z.leb_le; lia).
    simpl. now rewrite Hnet. }
  assert (Hw' : w' = mk_world (chat_data wn)
                       (without (job_name c) <$> job_queue wn)
                       (outbox wn ++ [(c, Text FINISHED_NOTICE)])).
  { subst w'. rewrite run_fires_add, Hn. simpl. now apply Hlast. }
  split; [|split; [|split]].
  - rewrite Hw'. simpl. now rewrite <- app_assoc.
  - rewrite Hw'. unfold cursor. simpl. rewrite lookup_insert_eq. exact Hin.
  - rewrite Hw'. unfold jobs_of. simpl. destruct (job_queue w); simpl;
      [apply named_without_same|reflexivity].
  - assert (Hcd : chat_data w' = chat_data wn) by now rewrite Hw'.
    intros k. rewrite Hcd. clear Hw'. revert Hcd. generalize w'.
    induction k as [|k IH]; intros v Hv; [exact Hv|].
    simpl. apply IH. now rewrite (Hlast v Hv).
Qed.

End DeliveryMore.

(** ** Delivery progress under the commands *)

Section Progress.

Variable tz_known : string -> bool.
Variable py_int : string -> option Z.
Variable MESSAGES : list pystr.
Variable c : Z.
Variable v : pyval.

Abbreviation at_cursor := (fun w : World => cursor w c = Some v).

Lemma keep_mutate (c' : Z) (f : gmap string pyval -> gmap string pyval) :
  (forall d x, d !! "index" = Some x -> f d !! "index" = Some x) ->
  preserves at_cursor (mutate c' f).
Proof.
  intros Hf w H. unfold cursor, mutate, the_store in *. simpl.
  destruct (decide (c' = c)) as [->|Hne].
  - rewrite lookup_insert_eq.
    destruct (chat_data w !! c) as [d|]; [now apply Hf|discriminate].
  - now rewrite lookup_insert_ne.
Qed.

Lemma keep_context_chat_data (c' : Z) :
  preserves at_cursor (context_chat_data c').
Proof.
  intros w H. unfold context_chat_data. simpl.
  now rewrite cursor_insert_store.
Qed.

Lemma keep_send_message (net : transport) (c' : Z) (m : outmsg) :
  preserves at_cursor (send_message net c' m).
Proof. intros w H. unfold send_message. now destruct (net c' m). Qed.

Lemma keep_cancel_existing_job (c' : Z) :
  preserves at_cursor (cancel_existing_job c').
Proof. intros w H. now rewrite cancel_existing_job_run. Qed.

Lemma keep_schedule_daily_job (c' : Z) (d : gmap string pyval) :
  preserves at_cursor (schedule_daily_job tz_known c' d).
Proof.
  intros w H. unfold cursor in *.
  now rewrite (proj1 (schedule_daily_job_chat_data tz_known c' d w)).
Qed.

Lemma setdefault_keeps (k : string) (x0 : pyval) (d : gmap string pyval)
    (k' : string) (x : pyval) :
  d !! k' = Some x -> setdefault k x0 d !! k' = Some x.
Proof. intros H. now rewrite setdefault_lookup, H. Qed.

Ltac keep :=
  repeat first
    [ apply preserves_ret | apply preserves_raise | apply preserves_lift
    | apply keep_send_message | apply keep_context_chat_data
    | apply keep_cancel_existing_job | apply keep_schedule_daily_job
    | apply keep_mutate; intros ? ? ?;
      first [ now apply setdefault_keeps
            | now rewrite lookup_insert_ne by discriminate ]
    | apply preserves_bind; [|intros ?]
    | progress cbv zeta
    | match goal with
      | |- preserves _ (match ?x with _ => _ end) => destruct x
      end ].

(** X19.  No command other than [reset] changes a stored cursor:
    [start], [settime], [settz], [status], [pause], [resume] and a
    restart leave every chat's delivery progress where it was, whatever
    their arguments and whether they return or raise. *)
Theorem commands_keep_cursor (net : transport) (ev : event) (w : World) :
  keeps_progress ev ->
  cursor w c = Some v ->
  cursor (snd (handle tz_known py_int MESSAGES net ev w)) c = Some v.
Proof.
  intros Hev. revert w. change (preserves at_cursor
    (handle tz_known py_int MESSAGES net ev)).
  destruct ev; simpl in Hev; try contradiction; simpl.
  - unfold start. keep.
  - unfold settime. keep.
  - unfold settz. keep.
  - unfold status. keep.
  - unfold pause. keep.
  - unfold resume. keep.
  - intros w H. unfold boot, on_startup.
    apply preserves_bind; [intros w0 H0; exact H0| |exact H].
    intros cd. apply preserves_for_each. intros x.
    apply keep_schedule_daily_job.
Qed.

End Progress.

(** ** The catalog entries *)

Lemma lstrip_suffix (s : pystr) : exists pre, s = pre ++ lstrip s.
Proof.
  induction s as [|y s [pre IH]]; [exists []; reflexivity|].
  simpl. destruct (is_space y); [|exists []; reflexivity].
  exists (y :: pre). simpl. now f_equal.
Qed.

Lemma Forall_lstrip (P : N -> Prop) (s : pystr) :
  Forall P s -> Forall P (lstrip s).
Proof.
  intros H. destruct (lstrip_suffix s) as [pre Hs].
  rewrite Hs in H. now apply Forall_app in H.
Qed.

Lemma Forall_strip (P : N -> Prop) (s : pystr) :
  Forall P s -> Forall P (strip s).
Proof.
  intros H. unfold strip, rstrip.
  apply Forall_rev, Forall_lstrip, Forall_rev, Forall_lstrip, H.
Qed.

Lemma splitlines_from_no_break (n : nat) : forall (s cur : pystr),
  (length s <= n)%nat ->
  Forall (fun c => is_linebreak c = false) cur ->
  Forall (Forall (fun c => is_linebreak c = false)) (splitlines_from cur s).
Proof.
  induction n as [|n IH]; intros s cur Hlen Hcur.
  - destruct s; [|simpl in Hlen; lia]. simpl.
    destruct cur; constructor; [now apply Forall_rev|constructor].
  - destruct s as [|c rest].
    + simpl. destruct cur; constructor; [now apply Forall_rev|constructor].
    + simpl in Hlen. simpl splitlines_from.
      destruct (is_linebreak c) eqn:Hlb.
      * destruct rest as [|c' rest'].
        -- simpl. constructor; [now apply Forall_rev|constructor].
        -- destruct ((c =? 13)%N && (c' =? 10)%N)%bool;
             (constructor; [now apply Forall_rev|]);
             apply IH; simpl in *; (lia || constructor).
      * apply IH; [lia|]. now constructor.
Qed.

(** X20.  Every entry of a catalog that [load_messages] returns starts
    and ends with a character that is not whitespace and holds no line
    boundary: an entry is one trimmed, non-empty line. *)
Theorem load_messages_entries_trimmed (path : file)
    (msgs : list pystr) :
  load_messages path = Ret msgs ->
  Forall (fun m =>
            m <> [] /\
            (forall c rest, m = c :: rest -> is_space c = false) /\
            (forall pre c, m = pre ++ [c] -> is_space c = false) /\
            Forall (fun c => is_linebreak c = false) m) msgs.
Proof.
  rewrite load_messages_run. destruct path as [|[text|e]]; try discriminate.
  destruct (filter _ (splitlines text)) as [|l kept] eqn:E; [discriminate|].
  intros H.
  assert (Hmsgs : msgs = map strip (filter (fun line => blank line = false)
                                           (splitlines text)))
    by (rewrite E; now injection H).
  subst msgs. clear H E. apply Forall_forall. intros m Hm.
  apply list_elem_of_In, in_map_iff in Hm. destruct Hm as (line & <- & Hl).
  apply list_elem_of_In, list_elem_of_filter in Hl. destruct Hl as [Hb Hl].
  split; [|split; [|split]].
  - intros Hs. apply strip_nil_blank in Hs. congruence.
  - intros c rest Hs. now apply (strip_no_leading_space line c rest).
  - intros pre c Hs. now apply (strip_no_trailing_space line c pre).
  - apply Forall_strip.
    pose proof (splitlines_from_no_break (length text) text [] (le_n _)
                  (Forall_nil_2 _)) as H.
    rewrite Forall_forall in H. now apply H.
Qed.

(** ** Stored configurations and timers in the reachable states *)

Section Sync.

Variable tz_known : string -> bool.
Variable py_int : string -> option Z.
Variable MESSAGES : list pystr.
Hypothesis default_known : tz_known DEFAULT_TZ = true.

Abbreviation cfg := (config_ok tz_known).
Abbreviation sync := (in_sync tz_known).

Lemma get_user_time_same (d d' : gmap string pyval) :
  index_only d d' -> get_user_time tz_known d' = get_user_time tz_known d.
Proof.
  intros H. unfold get_user_time, get_user_tz, dict_get.
  now rewrite !H by discriminate.
Qed.

Lemma config_ok_empty : cfg ∅.
Proof. repeat split; intros v H; now rewrite lookup_empty in H. Qed.

Lemma config_ok_index_only (d d' : gmap string pyval) :
  index_only d d' -> cfg d -> cfg d'.
Proof.
  intros H (Hh & Hm & Hz). repeat split; intros v Hv;
    rewrite H in Hv by discriminate; auto.
Qed.

Lemma index_only_refl (d : gmap string pyval) : index_only d d.
Proof. now intros k _. Qed.

Lemma index_only_insert (d : gmap string pyval) (v : pyval) :
  index_only d (<["index" := v]> d).
Proof. intros k Hk. now rewrite lookup_insert_ne by congruence. Qed.

Lemma config_ok_start_store (d : gmap string pyval) :
  cfg d -> cfg (start_store d).
Proof.
  intros (Hh & Hm & Hz). repeat split; intros v Hv;
    rewrite start_store_lookup in Hv.
  - destruct (d !! "hour") eqn:E; [injection Hv as <-; auto|].
    vm_compute in Hv. injection Hv as <-. exists 10. split; [reflexivity|lia].
  - destruct (d !! "minute") eqn:E; [injection Hv as <-; auto|].
    vm_compute in Hv. injection Hv as <-. exists 0. split; [reflexivity|lia].
  - destruct (d !! "tz") eqn:E; [injection Hv as <-; auto|].
    change (start_default "tz") with (Some (VStr DEFAULT_TZ)) in Hv.
    injection Hv as <-. eauto.
Qed.

Lemma config_ok_with_time (hh mm : Z) (d : gmap string pyval) :
  0 <= hh <= 23 -> 0 <= mm <= 59 -> cfg d -> cfg (with_time hh mm d).
Proof.
  intros Hhr Hmr (Hh & Hm & Hz). unfold with_time. repeat split; intros v Hv.
  - rewrite lookup_insert_ne, lookup_insert_eq in Hv by discriminate.
    injection Hv as <-. eauto.
  - rewrite lookup_insert_eq in Hv. injection Hv as <-. eauto.
  - rewrite !lookup_insert_ne in Hv by discriminate. auto.
Qed.

Lemma config_ok_tz (a : string) (d : gmap string pyval) :
  tz_known a = true -> cfg d -> cfg (<["tz" := VStr a]> d).
Proof.
  intros Ha (Hh & Hm & Hz). repeat split; intros v Hv.
  - rewrite lookup_insert_ne in Hv by discriminate. auto.
  - rewrite lookup_insert_ne in Hv by discriminate. auto.
  - rewrite lookup_insert_eq in Hv. injection Hv as <-. eauto.
Qed.

Lemma config_ok_time (d : gmap string pyval) :
  cfg d -> exists t, get_user_time tz_known d = Ret t.
Proof.
  intros (Hh & Hm & Hz).
  assert (Hzone : exists z, get_user_tz tz_known d = Ret z).
  { unfold get_user_tz, dict_get, ZoneInfo.
    destruct (d !! "tz") as [v|] eqn:E.
    - destruct (Hz v eq_refl) as (k & -> & Hk). rewrite Hk. eauto.
    - rewrite default_known. eauto. }
  destruct Hzone as [z Hzone]. unfold get_user_time. rewrite Hzone.
  assert (Hhour : exists hh, dict_get d "hour" (VInt DEFAULT_HOUR) = VInt hh
                             /\ 0 <= hh <= 23).
  { unfold dict_get. destruct (d !! "hour") as [v|] eqn:E.
    - destruct (Hh v eq_refl) as (h & -> & ?). eauto.
    - exists 10. split; [reflexivity|lia]. }
  assert (Hmin : exists mm, dict_get d "minute" (VInt DEFAULT_MINUTE) = VInt mm
                            /\ 0 <= mm <= 59).
  { unfold dict_get. destruct (d !! "minute") as [v|] eqn:E.
    - destruct (Hm v eq_refl) as (m & -> & ?). eauto.
    - exists 0. split; [reflexivity|lia]. }
  destruct Hhour as (hh & -> & ?). destruct Hmin as (mm & -> & ?).
  exists (mk_time hh mm z). apply time_of_ok. exists hh, mm. auto.
Qed.

Lemma sync_the_store (w : World) (c : Z) : sync w -> cfg (the_store w c).
Proof.
  intros [H _]. unfold the_store.
  destruct (chat_data w !! c) eqn:E; [now apply (H c)|apply config_ok_empty].
Qed.

(** A step that changes cursors only, keeps every dictionary, and
    leaves the queue or removes jobs from it. *)
Lemma sync_index_step (w w' : World) :
  sync w ->
  (forall c d', chat_data w' !! c = Some d' -> index_only (the_store w c) d') ->
  (forall c d, chat_data w !! c = Some d -> is_Some (chat_data w' !! c)) ->
  (forall jobs', job_queue w' = Some jobs' ->
     exists jobs, job_queue w = Some jobs /\ forall j, In j jobs' -> In j jobs) ->
  sync w'.
Proof.
  intros Hs H1 H2 H3. split.
  - intros c d' Hd'. apply (config_ok_index_only (the_store w c)); [auto|].
    now apply sync_the_store.
  - intros jobs' j Q' Hj. destruct (H3 jobs' Q') as (jobs & Q & Hsub).
    destruct Hs as [_ Hjobs].
    destruct (Hjobs jobs j Q (Hsub j Hj)) as (c & d & t & Hc & Ht & ->).
    destruct (H2 c d Hc) as [d' Hd'].
    exists c, d', t. split; [exact Hd'|]. split; [|reflexivity].
    rewrite <- Ht. apply get_user_time_same.
    specialize (H1 c d' Hd'). unfold the_store in H1. now rewrite Hc in H1.
Qed.

(** A step that differs from [w] in the delivered messages only. *)
Lemma sync_send_message (net : transport) (c : Z) (m : outmsg) (w : World) :
  sync w -> sync (snd (send_message net c m w)).
Proof.
  intros H. unfold send_message. destruct (net c m); [|exact H].
  destruct H as [H1 H2]. split; [exact H1|exact H2].
Qed.

(** A step that stores a well-formed dictionary for [c] and then
    schedules [c] from it. *)
Lemma sync_rearm_step (w w' : World) (c : Z) (d' : gmap string pyval)
    (ob : list (Z * outmsg)) :
  sync w -> cfg d' ->
  chat_data w' = <[c := d']> (chat_data w) ->
  job_queue w'
  = job_queue (snd (schedule_daily_job tz_known c d'
                      (mk_world (<[c := d']> (chat_data w)) (job_queue w) ob))) ->
  sync w'.
Proof.
  intros [Hcfg Hjobs] Hd' Hcd Hq. split.
  - intros c0 d0. rewrite Hcd. destruct (decide (c = c0)) as [<-|Hne].
    + rewrite lookup_insert_eq. now intros [= <-].
    + rewrite lookup_insert_ne by exact Hne. apply Hcfg.
  - rewrite schedule_daily_job_run in Hq. simpl in Hq.
    destruct (job_queue w) as [jobs|] eqn:Q; [|now rewrite Hq].
    destruct (config_ok_time d' Hd') as [t Ht]. rewrite Ht in Hq. simpl in Hq.
    intros jobs' j Q' Hj. rewrite Hq in Q'. injection Q' as <-.
    apply in_app_or in Hj as [Hj|[<-|[]]].
    + unfold without in Hj. apply list_elem_of_In, list_elem_of_filter in Hj.
      destruct Hj as [Hn Hj]. apply list_elem_of_In in Hj.
      destruct (Hjobs jobs j eq_refl Hj) as (c0 & d0 & t0 & Hc0 & Ht0 & ->).
      exists c0, d0, t0. rewrite Hcd. split; [|now split].
      rewrite lookup_insert_ne; [exact Hc0|]. intros ->. now apply Hn.
    + exists c, d', t. rewrite Hcd, lookup_insert_eq. auto.
Qed.

Lemma start_queue (net : transport) (c : Z) (w : World) :
  job_queue (snd (start tz_known net c w))
  = job_queue (snd (schedule_daily_job tz_known c (start_store (the_store w c))
                      (mk_world (<[c := start_store (the_store w c)]>
                                   (chat_data w))
                                (job_queue w) (outbox w)))).
Proof.
  unfold start. unfold bind at 1 2 3 4, mutate, the_store. simpl.
  rewrite !lookup_insert_eq, !insert_insert_eq.
  fold (the_store w c).
  change (setdefault "index" _ _) with (start_store (the_store w c)).
  set (S := start_store (the_store w c)).
  set (w4 := mk_world (<[c:=S]> (chat_data w)) (job_queue w) (outbox w)).
  assert (H4 : chat_data w4 !! c = Some S) by apply lookup_insert_eq.
  unfold bind at 1. rewrite (context_chat_data_present c w4 S H4).
  unfold bind at 1.
  pose proof (schedule_daily_job_chat_data tz_known c S w4) as [Hcd _].
  destruct (schedule_daily_job tz_known c S w4) as [[[]|e] w5];
    simpl in *; [|reflexivity].
  assert (H5 : chat_data w5 !! c = Some S) by now rewrite Hcd.
  unfold bind at 1. rewrite (context_chat_data_present c w5 S H5).
  unfold bind, lift.
  destruct (get_user_time tz_known S); [|reflexivity].
  destruct (dict_item S "tz"); [|reflexivity].
  apply send_message_frame.
Qed.

Lemma sync_start (net : transport) (c : Z) (w : World) :
  sync w -> sync (snd (start tz_known net c w)).
Proof.
  intros H.
  apply (sync_rearm_step w _ c (start_store (the_store w c)) (outbox w) H).
  - now apply config_ok_start_store, sync_the_store.
  - apply start_chat_data.
  - apply start_queue.
Qed.

Lemma sync_resume (net : transport) (c : Z) (w : World) :
  sync w -> sync (snd (resume tz_known net c w)).
Proof.
  intros H. destruct (resume_world tz_known net c w) as [Hcd Hq].
  apply (sync_rearm_step w _ c (the_store w c) (outbox w) H);
    [now apply sync_the_store|exact Hcd|exact Hq].
Qed.

Lemma sync_settime (net : transport) (c : Z) (args : list string) (w : World) :
  sync w -> sync (snd (settime tz_known py_int net c args w)).
Proof.
  intros H. unfold settime.
  destruct args as [|a rest]; [now apply sync_send_message|].
  destruct (split_colon a) as [|p1 [|p2 [|p3 ps]]];
    try now apply sync_send_message.
  destruct (py_int p1) as [hh|]; [|now apply sync_send_message].
  destruct (py_int p2) as [mm|]; [|now apply sync_send_message].
  destruct ((0 <=? hh) && (hh <=? 23) && (0 <=? mm) && (mm <=? 59)) eqn:E;
    [|now apply sync_send_message].
  repeat (apply andb_true_iff in E as [E ?]).
  set (d' := with_time hh mm (the_store w c)).
  set (w2 := mk_world (<[c := d']> (chat_data w)) (job_queue w) (outbox w)).
  assert (Hc2 : chat_data w2 !! c = Some d') by apply lookup_insert_eq.
  assert (Hrun : (mutate c (insert "hour" (VInt hh)) ;;;
                  mutate c (insert "minute" (VInt mm)) ;;;
                  d0 <- context_chat_data c ;;
                  schedule_daily_job tz_known c d0 ;;;
                  send_message net c (Reply (ReplyTimeChanged hh mm))) w
                 = (d0 <- context_chat_data c ;;
                    schedule_daily_job tz_known c d0 ;;;
                    send_message net c (Reply (ReplyTimeChanged hh mm))) w2).
  { unfold bind at 1 2, mutate, the_store. simpl.
    now rewrite lookup_insert_eq, insert_insert_eq. }
  rewrite Hrun.
  destruct (rearm_world tz_known net c (Reply (ReplyTimeChanged hh mm))
              w2 d' Hc2) as [Hcd Hq].
  apply (sync_rearm_step w _ c d' (outbox w) H); [|exact Hcd|exact Hq].
  apply config_ok_with_time; [lia|lia|now apply sync_the_store].
Qed.

Lemma sync_settz (net : transport) (c : Z) (args : list string) (w : World) :
  sync w -> sync (snd (settz tz_known net c args w)).
Proof.
  intros H. unfold settz.
  destruct args as [|a rest]; [now apply sync_send_message|].
  unfold ZoneInfo. destruct (tz_known a) eqn:Ha;
    [|now apply sync_send_message].
  set (d' := <["tz" := VStr a]> (the_store w c)).
  set (w2 := mk_world (<[c := d']> (chat_data w)) (job_queue w) (outbox w)).
  assert (Hc2 : chat_data w2 !! c = Some d') by apply lookup_insert_eq.
  change ((mutate c (insert "tz" (VStr a)) ;;;
           d0 <- context_chat_data c ;;
           schedule_daily_job tz_known c d0 ;;;
           send_message net c (Reply (ReplyTzChanged a))) w)
    with ((d0 <- context_chat_data c ;;
           schedule_daily_job tz_known c d0 ;;;
           send_message net c (Reply (ReplyTzChanged a))) w2).
  destruct (rearm_world tz_known net c (Reply (ReplyTzChanged a))
              w2 d' Hc2) as [Hcd Hq].
  apply (sync_rearm_step w _ c d' (outbox w) H); [|exact Hcd|exact Hq].
  apply config_ok_tz; [exact Ha|now apply sync_the_store].
Qed.

Lemma sync_insert_same (w : World) (c : Z) (d' : gmap string pyval)
    (q : option (list Job)) (ob : list (Z * outmsg)) :
  sync w -> index_only (the_store w c) d' ->
  (forall jobs', q = Some jobs' ->
     exists jobs, job_queue w = Some jobs /\ forall j, In j jobs' -> In j jobs) ->
  sync (mk_world (<[c := d']> (chat_data w)) q ob).
Proof.
  intros H Hd Hq. apply (sync_index_step w _ H); simpl.
  - intros c0 d0. destruct (decide (c = c0)) as [<-|Hne].
    + rewrite lookup_insert_eq. now intros [= <-].
    + rewrite lookup_insert_ne by exact Hne. intros Hc0.
      unfold the_store. rewrite Hc0. apply index_only_refl.
  - intros c0 d0 Hc0. destruct (decide (c = c0)) as [<-|Hne].
    + rewrite lookup_insert_eq. eauto.
    + rewrite lookup_insert_ne by exact Hne. eauto.
  - exact Hq.
Qed.

Lemma sync_without (w : World) (n : string) (ob : list (Z * outmsg)) :
  sync w -> sync (mk_world (chat_data w) (without n <$> job_queue w) ob).
Proof.
  intros H. apply (sync_index_step w _ H); simpl.
  - intros c d' Hc. unfold the_store. rewrite Hc. apply index_only_refl.
  - eauto.
  - intros jobs' Hq. destruct (job_queue w) as [jobs|]; [|discriminate].
    injection Hq as <-. exists jobs. split; [reflexivity|].
    intros j Hj. unfold without in Hj.
    apply list_elem_of_In, list_elem_of_filter in Hj.
    now apply list_elem_of_In.
Qed.

Lemma sync_status (net : transport) (c : Z) (w : World) :
  sync w -> sync (snd (status MESSAGES net c w)).
Proof.
  intros H. rewrite status_run. cbv zeta.
  assert (H1 : sync (mk_world (<[c := the_store w c]> (chat_data w))
                              (job_queue w) (outbox w))).
  { apply sync_insert_same; [exact H|apply index_only_refl|].
    intros jobs' ->. eauto. }
  destruct (dict_get _ "index" _); try exact H1.
  destruct (format_02d _); [|exact H1].
  destruct (format_02d _); [|exact H1].
  now apply sync_send_message.
Qed.

Lemma sync_pause (net : transport) (c : Z) (w : World) :
  sync w -> sync (snd (pause net c w)).
Proof. intros H. rewrite pause_world. now apply sync_without. Qed.

Lemma sync_reset (net : transport) (c : Z) (w : World) :
  sync w -> sync (snd (reset net c w)).
Proof.
  intros H. rewrite reset_world.
  apply sync_insert_same; [exact H|apply index_only_insert|].
  intros jobs' ->. eauto.
Qed.

Lemma sync_send_message_job (net : transport) (job : Job) (w : World) :
  sync w -> sync (snd (send_message_job MESSAGES net job w)).
Proof.
  intros H.
  destruct (send_message_job_shape MESSAGES net job w)
    as [->|[(c & ob & _ & _ & ->)|(c & d & i & m & _ & Hc & _ & _ & ->)]].
  - exact H.
  - now apply sync_without.
  - apply sync_insert_same; [exact H| |intros jobs' ->; eauto].
    unfold the_store. rewrite Hc. apply index_only_insert.
Qed.

Lemma preserves_for_each_in (P : World -> Prop) {A} (f : A -> M unit)
    (l : list A) :
  (forall x, In x l -> preserves P (f x)) -> preserves P (for_each f l).
Proof.
  induction l as [|x l IH]; intros Hf; simpl.
  - apply preserves_ret.
  - apply preserves_bind; [apply Hf; now left|].
    intros _. apply IH. intros y Hy. apply Hf. now right.
Qed.

Lemma sync_schedule_stored (cd : gmap Z (gmap string pyval)) (c : Z)
    (d : gmap string pyval) :
  cd !! c = Some d ->
  preserves (fun w => sync w /\ chat_data w = cd)
            (schedule_daily_job tz_known c d).
Proof.
  intros Hc w [H Hcd].
  pose proof (schedule_daily_job_chat_data tz_known c d w) as [Hcd' _].
  split; [|congruence].
  apply (sync_rearm_step w _ c d (outbox w) H).
  - destruct H as [H _]. apply (H c). congruence.
  - rewrite Hcd'. symmetry. apply insert_id. congruence.
  - f_equal. f_equal. destruct w as [cd0 q ob]. simpl in *. subst cd0.
    now rewrite (insert_id _ _ _ Hc).
Qed.

Lemma sync_boot (w : World) :
  sync w ->
  sync (snd (boot tz_known (chat_data w)
               (match job_queue w with Some _ => true | None => false end)
               (outbox w))).
Proof.
  intros [Hcfg _]. unfold boot, on_startup, bind, get_chat_data. simpl.
  set (w0 := mk_world (chat_data w) _ (outbox w)).
  assert (H0 : sync w0 /\ chat_data w0 = chat_data w).
  { split; [|reflexivity]. split; [exact Hcfg|].
    subst w0. simpl. intros jobs j Q Hj.
    destruct (job_queue w); [|discriminate]. injection Q as <-. destruct Hj. }
  apply (preserves_for_each_in
           (fun v => sync v /\ chat_data v = chat_data w)
           (fun item => schedule_daily_job tz_known (fst item) (snd item))
           (map_to_list (chat_data w))); [|exact H0].
  intros [c d] Hin. apply sync_schedule_stored.
  now apply elem_of_map_to_list, list_elem_of_In.
Qed.

Lemma reachable_sync (w : World) :
  reachable tz_known py_int MESSAGES w -> sync w.
Proof.
  induction 1 as [scheduler|w net ev _ IH _].
  - split; simpl.
    + intros c d H. now rewrite lookup_empty in H.
    + intros jobs j Q Hj. destruct scheduler; [|discriminate].
      injection Q as <-. destruct Hj.
  - destruct ev; simpl;
      auto using sync_start, sync_settime, sync_settz, sync_status, sync_pause,
                 sync_resume, sync_reset, sync_send_message_job, sync_boot.
Qed.

End Sync.

(** X21.  With the default zone in the database, every dictionary of a
    reachable state has a well-formed configuration: a stored hour is an
    integer of 0..23, a stored minute an integer of 0..59, a stored zone
    a name the database knows.  So [get_user_time] returns on it, and
    [schedule_daily_job] called with it never raises. *)
Theorem reachable_config_valid (tz_known : string -> bool)
    (py_int : string -> option Z) (MESSAGES : list pystr) (w : World) :
  tz_known DEFAULT_TZ = true ->
  reachable tz_known py_int MESSAGES w ->
  forall c d,
    chat_data w !! c = Some d ->
    config_ok tz_known d /\
    (exists t, get_user_time tz_known d = Ret t) /\
    (forall c' w0, fst (schedule_daily_job tz_known c' d w0) = Ret tt).
Proof.
  intros Hdef Hr c d Hc.
  destruct (reachable_sync tz_known py_int MESSAGES Hdef w Hr) as [Hcfg _].
  pose proof (Hcfg c d Hc) as Hd.
  destruct (config_ok_time tz_known Hdef d Hd) as [t Ht].
  split; [exact Hd|]. split; [eauto|].
  intros c' w0. rewrite schedule_daily_job_run.
  destruct (job_queue w0); [|reflexivity]. simpl. now rewrite Ht.
Qed.

(** X22.  With the default zone in the database, in every reachable
    state a chat has either no live job or exactly one, and that one is
    the daily job of the chat at the time its stored hour, minute and
    zone give now: a timer never runs on a stale configuration, and
    never for a chat without stored data. *)
Theorem reachable_timer_in_sync (tz_known : string -> bool)
    (py_int : string -> option Z) (MESSAGES : list pystr) (w : World) :
  tz_known DEFAULT_TZ = true ->
  reachable tz_known py_int MESSAGES w ->
  forall c,
    jobs_of w c = [] \/
    exists d t, chat_data w !! c = Some d /\
                get_user_time tz_known d = Ret t /\
                jobs_of w c = [daily_job c t].
Proof.
  intros Hdef Hr c.
  destruct (reachable_sync tz_known py_int MESSAGES Hdef w Hr) as [_ Hjobs].
  destruct (reachable_ok tz_known py_int MESSAGES w Hr) as [_ Hone].
  specialize (Hone (job_name c)). unfold jobs_of.
  destruct (job_queue w) as [jobs|] eqn:Q; [|now left].
  unfold live in Hone.
  destruct (get_jobs_by_name jobs (job_name c)) as [|j [|j' rest]] eqn:E;
    [now left| |simpl in Hone; lia].
  right.
  assert (Hj : j ∈ get_jobs_by_name jobs (job_name c))
    by (rewrite E; apply list_elem_of_here).
  unfold get_jobs_by_name in Hj. apply list_elem_of_filter in Hj.
  destruct Hj as [Hn Hj]. apply list_elem_of_In in Hj.
  destruct (Hjobs jobs j eq_refl Hj) as (c0 & d0 & t0 & Hc0 & Ht0 & ->).
  simpl in Hn. apply job_name_inj in Hn. subst c0. eauto.
Qed.

(** ** The further statements at concrete inputs *)

Lemma schedule_daily_job_arms_witness :
  jobs_of (snd (schedule_daily_job tz_sample 7 (store7 0) world10)) 7
  = [timer7].
Proof.
  exact (proj1 (proj2
    (schedule_daily_job_arms tz_sample 7 (store7 0) world10
       [daily_job 7 (mk_time 10 0 "Europe/Minsk")]
       (mk_time 9 30 "Europe/Minsk") ltac:(vm_compute; reflexivity) ltac:(vm_compute; reflexivity)))).
Defined.

Lemma schedule_daily_job_bad_time_witness :
  let r := schedule_daily_job tz_sample 7 {[ "hour" := VInt 24 ]} (world7 0) in
  fst r = Raise ValueError /\ jobs_of (snd r) 7 = [].
Proof.
  destruct (schedule_daily_job_bad_time tz_sample 7 {[ "hour" := VInt 24 ]}
              (world7 0) [timer7] ValueError ltac:(vm_compute; reflexivity) ltac:(vm_compute; reflexivity))
    as (H1 & H2 & _).
  exact (conj H1 H2).
Defined.


Lemma settime_accepts_witness :
  jobs_of (snd (settime tz_sample int_sample net_up 7 ["09:30"] world10)) 7
  = [timer7].
Proof.
  destruct (settime_accepts tz_sample int_sample net_up 7 world10
              "09:30" [] "09" "30" 9 30 ltac:(vm_compute; reflexivity) ltac:(vm_compute; reflexivity) ltac:(vm_compute; reflexivity)
              ltac:(lia) ltac:(lia)) as (_ & _ & _ & _ & H).
  destruct (H [daily_job 7 (mk_time 10 0 "Europe/Minsk")] "Europe/Minsk"
              ltac:(vm_compute; reflexivity) ltac:(vm_compute; reflexivity)) as [Hj _].
  exact Hj.
Defined.

Lemma settz_accepts_witness :
  jobs_of (snd (settz tz_sample net_up 7 ["UTC"] (world7 2))) 7
  = [daily_job 7 (mk_time 9 30 "UTC")].
Proof.
  destruct (settz_accepts tz_sample net_up 7 (world7 2) "UTC" [] ltac:(vm_compute; reflexivity))
    as (_ & _ & H).
  destruct (H [timer7] 9 30 ltac:(vm_compute; reflexivity) ltac:(vm_compute; reflexivity) ltac:(vm_compute; reflexivity) ltac:(lia) ltac:(lia))
    as [Hj _].
  exact Hj.
Defined.

Lemma pause_then_resume_witness :
  let w' := snd (resume tz_sample net_up 7 (snd (pause net_up 7 (world7 2)))) in
  chat_data w' = chat_data (world7 2) /\ jobs_of w' 7 = [timer7].
Proof.
  destruct (pause_then_resume tz_sample net_up net_up 7 (world7 2) (store7 2)
              [timer7] (mk_time 9 30 "Europe/Minsk")
              ltac:(vm_compute; reflexivity) ltac:(vm_compute; reflexivity) ltac:(vm_compute; reflexivity)) as (H1 & H2 & _).
  exact (conj H1 H2).
Defined.

Lemma resume_before_start_witness :
  let w' := snd (resume tz_sample net_up 9 (world7 2)) in
  chat_data w' !! 9 = Some ∅ /\
  jobs_of w' 9 = [daily_job 9 (mk_time 10 0 "Europe/Minsk")] /\
  send_message_job catalog5 net_up
    (daily_job 9 (mk_time 10 0 "Europe/Minsk")) w' = (Ret tt, w').
Proof.
  destruct (resume_before_start tz_sample catalog5 net_up 9 (world7 2)
              [timer7] ltac:(vm_compute; reflexivity) ltac:(vm_compute; reflexivity) ltac:(vm_compute; reflexivity)) as (H1 & H2 & H3).
  exact (conj H1 (conj H2 (H3 net_up _ _ H1))).
Defined.

Lemma reset_restarts_sequence_witness :
  let w1 := snd (reset net_up 7 (world7 5)) in
  let w2 := snd (send_message_job catalog5 net_up timer7 w1) in
  cursor w1 7 = Some (VInt 0) /\ cursor w2 7 = Some (VInt 1) /\
  outbox w2 = outbox w1 ++ [(7, Text [49%N])].
Proof.
  destruct (reset_restarts_sequence catalog5 net_up net_up 7 (world7 5)
              timer7 [49%N] ltac:(vm_compute; reflexivity) ltac:(vm_compute; reflexivity) ltac:(vm_compute; reflexivity))
    as (H1 & _ & _ & _ & H2 & H3 & _).
  exact (conj H1 (conj H2 H3)).
Defined.

Lemma fires_deliver_in_order_witness :
  let w' := run_fires catalog5 net_up timer7 3 (world7 1) in
  cursor w' 7 = Some (VInt (1 + Z.of_nat 3)) /\
  outbox w' = outbox (world7 1)
              ++ map (fun m => (7, Text m))
                     (take 3 (drop (Z.to_nat 1) catalog5)).
Proof.
  destruct (fires_deliver_in_order catalog5 net_up timer7 7 3 (world7 1)
              (store7 1) 1 ltac:(vm_compute; reflexivity) (fun _ => eq_refl) ltac:(vm_compute; reflexivity) ltac:(vm_compute; reflexivity)
              ltac:(lia) ltac:(simpl; lia)) as (H1 & H2 & _).
  exact (conj H1 H2).
Defined.

Lemma full_run_then_notice_witness :
  let w' := run_fires catalog5 net_up timer7 (length catalog5 + 1) (world7 0) in
  outbox w' = outbox (world7 0) ++ map (fun m => (7, Text m)) catalog5
                       ++ [(7, Text FINISHED_NOTICE)] /\
  cursor w' 7 = Some (VInt (Z.of_nat (length catalog5))) /\
  jobs_of w' 7 = [].
Proof.
  destruct (full_run_then_notice catalog5 net_up timer7 7 (world7 0)
              (store7 0) ltac:(vm_compute; reflexivity) (fun _ => eq_refl) ltac:(vm_compute; reflexivity) ltac:(vm_compute; reflexivity))
    as (H1 & H2 & H3 & _).
  exact (conj H1 (conj H2 H3)).
Defined.

Lemma commands_keep_cursor_witness :
  cursor (snd (handle tz_sample int_sample catalog5 net_up
                      (ESetTime 7 ["09:30"]) world10)) 7
  = Some (VInt 3).
Proof.
  exact (commands_keep_cursor tz_sample int_sample catalog5 7 (VInt 3)
           net_up (ESetTime 7 ["09:30"]) world10 I ltac:(vm_compute; reflexivity)).
Defined.

Lemma load_messages_entries_trimmed_witness :
  Forall (fun m =>
            m <> [] /\
            (forall c rest, m = c :: rest -> is_space c = false) /\
            (forall pre c, m = pre ++ [c] -> is_space c = false) /\
            Forall (fun c => is_linebreak c = false) m)
         [[49]; [50]]%N.
Proof.
  exact (load_messages_entries_trimmed
           (Existing (Ret [32; 49; 10; 9; 13; 10; 50; 32]%N)) [[49]; [50]]%N
           ltac:(vm_compute; reflexivity)).
Defined.

Lemma world_started_reachable :
  reachable tz_sample int_sample catalog5 world_started.
Proof.
  apply reach_step; [|exact I].
  exact (reach_init tz_sample int_sample catalog5 true).
Defined.

Lemma reachable_config_valid_witness :
  config_ok tz_sample (start_store (∅ : gmap string pyval)) /\
  exists t, get_user_time tz_sample (start_store (∅ : gmap string pyval))
            = Ret t.
Proof.
  assert (Hdef : tz_sample DEFAULT_TZ = true) by reflexivity.
  assert (Hc : chat_data world_started !! 7
               = Some (start_store (∅ : gmap string pyval)))
    by (vm_compute; reflexivity).
  destruct (reachable_config_valid tz_sample int_sample catalog5 world_started
              Hdef world_started_reachable 7 _ Hc) as (H1 & H2 & _).
  exact (conj H1 H2).
Defined.

Lemma reachable_timer_in_sync_witness :
  jobs_of world_started 7 = [] \/
  exists d t, chat_data world_started !! 7 = Some d /\
              get_user_time tz_sample d = Ret t /\
              jobs_of world_started 7 = [daily_job 7 t].
Proof.
  exact (reachable_timer_in_sync tz_sample int_sample catalog5 world_started
           ltac:(vm_compute; reflexivity) world_started_reachable 7).
Defined.

(** ** Restarts and failures in the reachable states *)

Section Robust.

Variable tz_known : string -> bool.
Variable py_int : string -> option Z.
Variable MESSAGES : list pystr.
Hypothesis default_known : tz_known DEFAULT_TZ = true.

(** X23.  With the default zone in the database, a restart from a
    reachable state with a queue returns normally, keeps the stored
    data and the delivered messages, and leaves every chat that has
    stored data with exactly one live job, at its stored time; a chat
    without stored data has none.  A timer removed by [pause] is armed
    again by the restart. *)
Theorem restart_rearms_every_chat (net : transport) (w : World)
    (jobs : list Job) :
  reachable tz_known py_int MESSAGES w ->
  job_queue w = Some jobs ->
  let r := handle tz_known py_int MESSAGES net ERestart w in
  fst r = Ret tt /\
  chat_data (snd r) = chat_data w /\
  outbox (snd r) = outbox w /\
  (forall c d, chat_data w !! c = Some d ->
     exists t, get_user_time tz_known d = Ret t /\
               jobs_of (snd r) c = [daily_job c t]) /\
  (forall c, chat_data w !! c = None -> jobs_of (snd r) c = []).
Proof.
  intros Hr Q r. subst r. simpl. rewrite Q.
  destruct (reachable_sync tz_known py_int MESSAGES default_known w Hr)
    as [Hcfg _].
  destruct (startup_loop tz_known (map_to_list (chat_data w)) (chat_data w)
              [] (outbox w)) as (jobs' & Hrun & Hin & Hout).
  - exact (NoDup_fst_map_to_list (chat_data w)).
  - intros c d H. apply (config_ok_time tz_known default_known).
    apply (Hcfg c). now apply elem_of_map_to_list, list_elem_of_In.
  - unfold boot, on_startup, bind, get_chat_data. simpl. rewrite Hrun. simpl.
    repeat split.
    + intros c d Hc. destruct (Hin c d) as (t & Ht & Hj).
      { now apply list_elem_of_In, elem_of_map_to_list. }
      exists t. split; [exact Ht|]. unfold jobs_of. simpl. exact Hj.
    + intros c Hc. unfold jobs_of. simpl. rewrite Hout; [reflexivity|].
      intros H. apply in_map_iff in H as ([c' d] & <- & H).
      apply list_elem_of_In, elem_of_map_to_list in H. simpl in Hc.
      congruence.
Qed.

Lemma send_message_error (net : transport) (c : Z) (m : outmsg) (w : World)
    (e : exn) :
  fst (send_message net c m w) = Raise e -> e = TransportError.
Proof. unfold send_message. destruct (net c m); [discriminate|]. now intros [= <-]. Qed.

Lemma schedule_daily_job_returns (c : Z) (d : gmap string pyval) (w : World) :
  config_ok tz_known d -> fst (schedule_daily_job tz_known c d w) = Ret tt.
Proof.
  intros Hd. destruct (config_ok_time tz_known default_known d Hd) as [t Ht].
  rewrite schedule_daily_job_run. destruct (job_queue w); [|reflexivity].
  simpl. now rewrite Ht.
Qed.

Lemma rearm_error (net : transport) (c : Z) (m : outmsg) (w : World)
    (d : gmap string pyval) (e : exn) :
  chat_data w !! c = Some d -> config_ok tz_known d ->
  fst ((d0 <- context_chat_data c ;;
        schedule_daily_job tz_known c d0 ;;;
        send_message net c m) w) = Raise e ->
  e = TransportError.
Proof.
  intros Hc Hd. rewrite (rearm_run tz_known net c m w d Hc).
  pose proof (schedule_daily_job_returns c d w Hd) as Hs.
  destruct (schedule_daily_job tz_known c d w) as [[[]|e0] w1];
    simpl in Hs; [|discriminate].
  apply send_message_error.
Qed.

Lemma start_run (net : transport) (c : Z) (w : World) :
  let S := start_store (the_store w c) in
  let w4 := mk_world (<[c := S]> (chat_data w)) (job_queue w) (outbox w) in
  start tz_known net c w
  = match schedule_daily_job tz_known c S w4 with
    | (Ret _, w5) =>
        match get_user_time tz_known S with
        | Ret t =>
            match dict_item S "tz" with
            | Ret tz =>
                send_message net c
                  (Reply (ReplyStart (hour t) (minute t) tz)) w5
            | Raise e => (Raise e, w5)
            end
        | Raise e => (Raise e, w5)
        end
    | (Raise e, w5) => (Raise e, w5)
    end.
Proof.
  intros S w4. unfold start. unfold bind at 1 2 3 4, mutate, the_store. simpl.
  rewrite !lookup_insert_eq, !insert_insert_eq.
  fold (the_store w c).
  change (setdefault "index" _ _) with S. fold w4.
  assert (H4 : chat_data w4 !! c = Some S) by apply lookup_insert_eq.
  unfold bind at 1. rewrite (context_chat_data_present c w4 S H4).
  unfold bind at 1.
  pose proof (schedule_daily_job_chat_data tz_known c S w4) as [Hcd _].
  destruct (schedule_daily_job tz_known c S w4) as [[[]|e] w5];
    simpl in Hcd; [|reflexivity].
  assert (H5 : chat_data w5 !! c = Some S) by now rewrite Hcd.
  unfold bind at 1. rewrite (context_chat_data_present c w5 S H5).
  unfold bind, lift.
  destruct (get_user_time tz_known S); [|reflexivity].
  now destruct (dict_item S "tz").
Qed.

(** X24.  With the default zone in the database, an event handled in a
    reachable state never fails inside the program: a command, a fire or
    a restart either returns or raises the transport's error, and no
    [TypeError], [ValueError], [KeyError], [IndexError] or zone error
    can come out of it. *)
Theorem reachable_only_transport_errors (net : transport) (ev : event)
    (w : World) (e : exn) :
  reachable tz_known py_int MESSAGES w ->
  fst (handle tz_known py_int MESSAGES net ev w) = Raise e ->
  e = TransportError.
Proof.
  intros Hr.
  pose proof (reachable_sync tz_known py_int MESSAGES default_known w Hr)
    as Hsync.
  destruct (reachable_ok tz_known py_int MESSAGES w Hr) as [Hcur _].
  assert (Hstore : forall c, config_ok tz_known (the_store w c))
    by (intros c; now apply sync_the_store).
  destruct ev as [c|c args|c args|c|c|c|c|job|]; simpl.
  - (* start *)
    rewrite start_run. cbv zeta.
    set (S := start_store (the_store w c)).
    assert (HS : config_ok tz_known S)
      by (apply config_ok_start_store; auto).
    pose proof (schedule_daily_job_returns c S
                  (mk_world (<[c := S]> (chat_data w)) (job_queue w) (outbox w))
                  HS) as Hs.
    destruct (schedule_daily_job tz_known c S _) as [[[]|e0] w5];
      simpl in Hs; [|discriminate].
    destruct (config_ok_time tz_known default_known S HS) as [t ->].
    assert (Htz : exists tz, dict_item S "tz" = Ret tz).
    { unfold dict_item, S. rewrite start_store_lookup.
      destruct (the_store w c !! "tz"); eauto. }
    destruct Htz as [tz ->]. apply send_message_error.
  - (* settime *)
    unfold settime.
    destruct args as [|a rest]; [apply send_message_error|].
    destruct (split_colon a) as [|p1 [|p2 [|p3 ps]]];
      try apply send_message_error.
    destruct (py_int p1) as [hh|]; [|apply send_message_error].
    destruct (py_int p2) as [mm|]; [|apply send_message_error].
    destruct ((0 <=? hh) && (hh <=? 23) && (0 <=? mm) && (mm <=? 59)) eqn:E;
      [|apply send_message_error].
    repeat (apply andb_true_iff in E as [E ?]).
    set (d' := with_time hh mm (the_store w c)).
    set (w2 := mk_world (<[c := d']> (chat_data w)) (job_queue w) (outbox w)).
    assert (Hrun : (mutate c (insert "hour" (VInt hh)) ;;;
                    mutate c (insert "minute" (VInt mm)) ;;;
                    d0 <- context_chat_data c ;;
                    schedule_daily_job tz_known c d0 ;;;
                    send_message net c (Reply (ReplyTimeChanged hh mm))) w
                   = (d0 <- context_chat_data c ;;
                      schedule_daily_job tz_known c d0 ;;;
                      send_message net c (Reply (ReplyTimeChanged hh mm))) w2).
    { unfold bind at 1 2, mutate, the_store. simpl.
      now rewrite lookup_insert_eq, insert_insert_eq. }
    rewrite Hrun. apply (rearm_error _ _ _ _ d'); [apply lookup_insert_eq|].
    apply config_ok_with_time; [lia|lia|auto].
  - (* settz *)
    unfold settz.
    destruct args as [|a rest]; [apply send_message_error|].
    unfold ZoneInfo. destruct (tz_known a) eqn:Ha; [|apply send_message_error].
    set (d' := <["tz" := VStr a]> (the_store w c)).
    set (w2 := mk_world (<[c := d']> (chat_data w)) (job_queue w) (outbox w)).
    change ((mutate c (insert "tz" (VStr a)) ;;;
             d0 <- context_chat_data c ;;
             schedule_daily_job tz_known c d0 ;;;
             send_message net c (Reply (ReplyTzChanged a))) w)
      with ((d0 <- context_chat_data c ;;
             schedule_daily_job tz_known c d0 ;;;
             send_message net c (Reply (ReplyTzChanged a))) w2).
    apply (rearm_error _ _ _ _ d'); [apply lookup_insert_eq|].
    apply config_ok_tz; auto.
  - (* status *)
    rewrite status_run. cbv zeta.
    destruct (Hstore c) as (Hh & Hm & _).
    assert (Hi : exists i, dict_get (the_store w c) "index" (VInt 0) = VInt i).
    { unfold dict_get. destruct (the_store w c !! "index") as [x|] eqn:Ex;
        [|eauto].
      unfold the_store in Ex. destruct (chat_data w !! c) as [d|] eqn:Ec;
        [|now rewrite lookup_empty in Ex].
      destruct (Hcur c d Ec x Ex) as (i & -> & _). eauto. }
    destruct Hi as [i ->].
    assert (Hhh : exists h, dict_get (the_store w c) "hour" (VInt DEFAULT_HOUR)
                            = VInt h).
    { unfold dict_get. destruct (the_store w c !! "hour") as [x|] eqn:Ex;
        [|eauto]. destruct (Hh x eq_refl) as (h & -> & _). eauto. }
    destruct Hhh as [h ->].
    assert (Hmm : exists m, dict_get (the_store w c) "minute"
                              (VInt DEFAULT_MINUTE) = VInt m).
    { unfold dict_get. destruct (the_store w c !! "minute") as [x|] eqn:Ex;
        [|eauto]. destruct (Hm x eq_refl) as (m & -> & _). eauto. }
    destruct Hmm as [m ->]. simpl. apply send_message_error.
  - (* pause *)
    unfold pause, bind. rewrite cancel_existing_job_run.
    apply send_message_error.
  - (* resume *)
    rewrite resume_run.
    pose proof (schedule_daily_job_returns c (the_store w c)
                  (mk_world (<[c := the_store w c]> (chat_data w))
                            (job_queue w) (outbox w)) (Hstore c)) as Hs.
    destruct (schedule_daily_job tz_known c _ _) as [[[]|e0] w1];
      simpl in Hs; [|discriminate].
    apply send_message_error.
  - (* reset *)
    unfold reset, bind, mutate. apply send_message_error.
  - (* fire *)
    rewrite send_message_job_run.
    destruct (job_data_chat_id job) as [c| |]; try discriminate.
    destruct (chat_data w !! c) as [d|] eqn:Hc; [|discriminate].
    destruct (dict_truthy d); [|discriminate].
    assert (Hi : exists i, dict_get d "index" (VInt 0) = VInt i /\ 0 <= i).
    { unfold dict_get. destruct (d !! "index") as [x|] eqn:Ex.
      - destruct (Hcur c d Hc x Ex) as (i & -> & ?). exists i. split; [auto|lia].
      - exists 0. split; [reflexivity|lia]. }
    destruct Hi as (i & -> & Hi).
    destruct (Z.of_nat (length MESSAGES) <=? i) eqn:Hge.
    + simpl. destruct (net c (Text FINISHED_NOTICE)); [discriminate|].
      now intros [= <-].
    + apply Z.leb_gt in Hge.
      destruct (py_getitem_in_range MESSAGES i) as (m & _ & ->); [lia|].
      destruct (net c (Text m)); [discriminate|]. now intros [= <-].
  - (* restart *)
    destruct Hsync as [Hcfg _]. destruct (job_queue w) as [jobs|].
    + destruct (startup_loop tz_known (map_to_list (chat_data w)) (chat_data w)
                  [] (outbox w)) as (jobs' & Hrun & _).
      * exact (NoDup_fst_map_to_list (chat_data w)).
      * intros c d H. apply (config_ok_time tz_known default_known).
        apply (Hcfg c). now apply elem_of_map_to_list, list_elem_of_In.
      * unfold boot, on_startup, bind, get_chat_data. simpl. rewrite Hrun.
        discriminate.
    + rewrite on_startup_no_scheduler. discriminate.
Qed.

End Robust.

Lemma world_paused_reachable :
  reachable tz_sample int_sample catalog5 world_paused.
Proof. apply reach_step; [exact world_started_reachable|exact I]. Defined.

Lemma restart_rearms_every_chat_witness :
  jobs_of world_paused 7 = [] /\
  jobs_of (snd (handle tz_sample int_sample catalog5 net_up ERestart
                       world_paused)) 7
  = [daily_job 7 (mk_time 10 0 "Europe/Minsk")].
Proof.
  split; [vm_compute; reflexivity|].
  assert (Hdef : tz_sample DEFAULT_TZ = true) by reflexivity.
  assert (Hq : job_queue world_paused = Some []) by (vm_compute; reflexivity).
  assert (Hc : chat_data world_paused !! 7
               = Some (start_store (∅ : gmap string pyval)))
    by (vm_compute; reflexivity).
  destruct (restart_rearms_every_chat tz_sample int_sample catalog5 Hdef
              net_up world_paused [] world_paused_reachable Hq)
    as (_ & _ & _ & H & _).
  destruct (H 7 _ Hc) as (t & Ht & Hj).
  assert (Ht' : get_user_time tz_sample (start_store (∅ : gmap string pyval))
                = Ret (mk_time 10 0 "Europe/Minsk"))
    by (vm_compute; reflexivity).
  rewrite Ht' in Ht. injection Ht as <-. exact Hj.
Defined.

Lemma reachable_only_transport_errors_witness :
  fst (handle tz_sample int_sample catalog5 net_down (EStatus 7) world_started)
  = Raise TransportError /\
  TransportError = TransportError.
Proof.
  assert (Hdef : tz_sample DEFAULT_TZ = true) by reflexivity.
  assert (Hfail : fst (handle tz_sample int_sample catalog5 net_down
                              (EStatus 7) world_started)
                  = Raise TransportError) by (vm_compute; reflexivity).
  split; [exact Hfail|].
  exact (reachable_only_transport_errors tz_sample int_sample catalog5 Hdef
           net_down (EStatus 7) world_started TransportError
           world_started_reachable Hfail).
Defined.

(** ** The startup loop in the dictionary's order *)

Lemma for_each_app {A} (f : A -> M unit) (a b : list A) (w : World) :
  for_each f (a ++ b) w
  = match for_each f a w with
    | (Ret _, w1) => for_each f b w1
    | (Raise e, w1) => (Raise e, w1)
    end.
Proof.
  revert w. induction a as [|x a IH]; intros w; [reflexivity|].
  simpl. unfold bind. destruct (f x w) as [[[]|e] w1]; [apply IH|reflexivity].
Qed.

Section StartupOrder.

Variable tz_known : string -> bool.

Lemma on_startup_over_map (w : World) :
  on_startup tz_known w
  = on_startup_over tz_known (map_to_list (chat_data w)) w.
Proof. reflexivity. Qed.

(** The loop over entries that all yield a time, on any world with a
    queue. *)
Lemma on_startup_over_good (items : list (Z * gmap string pyval))
    (w : World) (jobs : list Job) :
  NoDup (map fst items) ->
  (forall c d, In (c, d) items -> exists t, get_user_time tz_known d = Ret t) ->
  job_queue w = Some jobs ->
  exists jobs',
    on_startup_over tz_known items w
    = (Ret tt, mk_world (chat_data w) (Some jobs') (outbox w)) /\
    (forall c d, In (c, d) items ->
       exists t, get_user_time tz_known d = Ret t /\
                 get_jobs_by_name jobs' (job_name c) = [daily_job c t]) /\
    (forall c, ~ In c (map fst items) ->
       get_jobs_by_name jobs' (job_name c)
       = get_jobs_by_name jobs (job_name c)).
Proof.
  intros Hnd Htime Q. destruct w as [cd q ob]. simpl in *. subst q.
  exact (startup_loop tz_known items cd jobs ob Hnd Htime).
Qed.

(** X25.  The timers [on_startup]'s loop leaves do not depend on the
    order in which the dictionary yields its entries: over entries with
    distinct chat ids that all yield a time, and with a queue, the loop
    returns in every order, leaves the stored data alone, and leaves
    each listed chat with exactly its daily job at its stored time and
    every other chat with the jobs it had; two orders of the same
    entries give every chat the same jobs.  [on_startup] is that loop
    in the order of the map. *)
Theorem on_startup_order_irrelevant
    (items items' : list (Z * gmap string pyval)) (w : World)
    (jobs : list Job) :
  Permutation items items' ->
  NoDup (map fst items) ->
  (forall c d, In (c, d) items -> exists t, get_user_time tz_known d = Ret t) ->
  job_queue w = Some jobs ->
  let r := on_startup_over tz_known items w in
  let r' := on_startup_over tz_known items' w in
  fst r = Ret tt /\ fst r' = Ret tt /\
  chat_data (snd r) = chat_data w /\ chat_data (snd r') = chat_data w /\
  (forall c, jobs_of (snd r) c = jobs_of (snd r') c) /\
  (forall c d, In (c, d) items ->
     exists t, get_user_time tz_known d = Ret t /\
               jobs_of (snd r) c = [daily_job c t]) /\
  (forall c, ~ In c (map fst items) -> jobs_of (snd r) c = jobs_of w c) /\
  on_startup tz_known w
  = on_startup_over tz_known (map_to_list (chat_data w)) w.
Proof.
  intros Hperm Hnd Htime Q r r'.
  assert (Hnd' : NoDup (map fst items'))
    by (now rewrite <- (Permutation_map fst Hperm)).
  assert (Htime' : forall c d, In (c, d) items' ->
                     exists t, get_user_time tz_known d = Ret t).
  { intros c d H. apply (Htime c d).
    eapply Permutation_in; [symmetry; exact Hperm|exact H]. }
  destruct (on_startup_over_good items w jobs Hnd Htime Q)
    as (j1 & H1 & Hin1 & Hout1).
  destruct (on_startup_over_good items' w jobs Hnd' Htime' Q)
    as (j2 & H2 & Hin2 & Hout2).
  subst r r'. rewrite H1, H2. simpl. unfold jobs_of. simpl. rewrite Q.
  repeat split; auto.
  intros c. destruct (in_dec Z.eq_dec c (map fst items)) as [Hc|Hc].
  - apply in_map_iff in Hc as ([c0 d] & Hfst & Hc). simpl in Hfst. subst c0.
    destruct (Hin1 c d Hc) as (t1 & Ht1 & ->).
    destruct (Hin2 c d) as (t2 & Ht2 & ->);
      [eapply Permutation_in; eauto|].
    congruence.
  - rewrite Hout1 by exact Hc. rewrite Hout2; [reflexivity|].
    intros H. apply Hc.
    eapply Permutation_in; [symmetry; apply Permutation_map, Hperm|exact H].
Qed.

(** X26.  The loop stops at the first entry from which no time can be
    built and raises its error: the chats listed before it have their
    daily job, the failing chat has lost every job it had, and the chats
    listed after it keep the jobs they had, not armed by this start. *)
Theorem on_startup_stops_at_bad_entry
    (good rest : list (Z * gmap string pyval)) (c0 : Z)
    (d0 : gmap string pyval) (e : exn) (w : World) (jobs : list Job) :
  NoDup (map fst (good ++ (c0, d0) :: rest)) ->
  (forall c d, In (c, d) good -> exists t, get_user_time tz_known d = Ret t) ->
  get_user_time tz_known d0 = Raise e ->
  job_queue w = Some jobs ->
  let r := on_startup_over tz_known (good ++ (c0, d0) :: rest) w in
  fst r = Raise e /\
  chat_data (snd r) = chat_data w /\
  (forall c d, In (c, d) good ->
     exists t, get_user_time tz_known d = Ret t /\
               jobs_of (snd r) c = [daily_job c t]) /\
  jobs_of (snd r) c0 = [] /\
  (forall c, In c (map fst rest) -> jobs_of (snd r) c = jobs_of w c).
Proof.
  intros Hnd Hgood Hbad Q r.
  rewrite map_app in Hnd. simpl in Hnd.
  apply NoDup_app in Hnd as (Hnd1 & Hdisj & Hnd2).
  apply NoDup_cons in Hnd2 as [Hc0r _].
  destruct (on_startup_over_good good w jobs Hnd1 Hgood Q)
    as (j1 & H1 & Hin1 & Hout1).
  assert (Hr : r = (Raise e, mk_world (chat_data w)
                               (Some (without (job_name c0) j1)) (outbox w))).
  { subst r. unfold on_startup_over in *. rewrite for_each_app, H1.
    simpl. unfold bind. rewrite schedule_daily_job_run. simpl.
    now rewrite Hbad. }
  rewrite Hr. simpl. unfold jobs_of. simpl. rewrite Q.
  assert (Hc0 : ~ In c0 (map fst good)).
  { intros H. apply (Hdisj c0); [now apply list_elem_of_In|].
    apply list_elem_of_here. }
  split; [reflexivity|]. split; [reflexivity|]. split; [|split].
  - intros c d Hc. destruct (Hin1 c d Hc) as (t & Ht & Hj).
    exists t. split; [exact Ht|].
    rewrite named_without_other; [exact Hj|].
    apply job_name_ne. intros ->. apply Hc0.
    apply in_map_iff. exists (c0, d). now split.
  - apply named_without_same.
  - intros c Hc.
    assert (Hne : c <> c0)
      by (intros ->; apply Hc0r; now apply list_elem_of_In).
    rewrite named_without_other by now apply job_name_ne.
    apply Hout1. intros H.
    apply (Hdisj c); [now apply list_elem_of_In|].
    apply list_elem_of_further. now apply list_elem_of_In.
Qed.

End StartupOrder.

Lemma on_startup_order_irrelevant_witness :
  let w := mk_world {[ 7 := store7 1; 8 := store7 2 ]} (Some [timer7]) [] in
  let r := on_startup_over tz_sample [(7, store7 1); (8, store7 2)] w in
  let r' := on_startup_over tz_sample [(8, store7 2); (7, store7 1)] w in
  fst r = Ret tt /\ fst r' = Ret tt /\
  jobs_of (snd r) 7 = jobs_of (snd r') 7 /\
  jobs_of (snd r) 8 = jobs_of (snd r') 8.
Proof.
  assert (Ht : forall c d, In (c, d) [(7, store7 1); (8, store7 2)] ->
                 exists t, get_user_time tz_sample d = Ret t).
  { intros c d [[= <- <-]|[[= <- <-]|[]]];
      exists (mk_time 9 30 "Europe/Minsk"); vm_compute; reflexivity. }
  assert (Hnd : NoDup (map fst [(7, store7 1); (8, store7 2)])).
  { apply (bool_decide_unpack _). vm_compute. exact I. }
  destruct (on_startup_order_irrelevant tz_sample
              [(7, store7 1); (8, store7 2)] [(8, store7 2); (7, store7 1)]
              (mk_world {[ 7 := store7 1; 8 := store7 2 ]} (Some [timer7]) [])
              [timer7] (perm_swap _ _ _) Hnd Ht eq_refl)
    as (H1 & H2 & _ & _ & H3 & _).
  exact (conj H1 (conj H2 (conj (H3 7) (H3 8)))).
Defined.

Lemma on_startup_stops_at_bad_entry_witness :
  let w := mk_world {[ 7 := store7 1 ]} (Some [timer7]) [] in
  let r := on_startup_over tz_sample
             ([(7, store7 1)] ++ (8, {[ "hour" := VInt 24 ]})
                :: [(9, store7 2)]) w in
  fst r = Raise ValueError /\
  jobs_of (snd r) 8 = [] /\
  jobs_of (snd r) 9 = jobs_of w 9.
Proof.
  assert (Ht : forall c d, In (c, d) [(7, store7 1)] ->
                 exists t, get_user_time tz_sample d = Ret t).
  { intros c d [[= <- <-]|[]].
    exists (mk_time 9 30 "Europe/Minsk"); vm_compute; reflexivity. }
  assert (Hbad : get_user_time tz_sample {[ "hour" := VInt 24 ]}
                 = Raise ValueError) by (vm_compute; reflexivity).
  assert (Hnd : NoDup (map fst ([(7, store7 1)]
                          ++ (8, ({[ "hour" := VInt 24 ]} : gmap string pyval))
                          :: [(9, store7 2)]))).
  { apply (bool_decide_unpack _). vm_compute. exact I. }
  destruct (on_startup_stops_at_bad_entry tz_sample [(7, store7 1)]
              [(9, store7 2)] 8 {[ "hour" := VInt 24 ]} ValueError
              (mk_world {[ 7 := store7 1 ]} (Some [timer7]) [])
              [timer7] Hnd Ht Hbad eq_refl)
    as (H1 & _ & _ & H2 & H3).
  exact (conj H1 (conj H2 (H3 9 (or_introl eq_refl)))).
Defined.
